(** * Davix: the standalone curl request and the Uri wrapper

    A shallow embedding of [src/davixuri.cpp] and
    [src/curl/StandaloneCurlRequest.cpp].

    - [std::string] is [string]; a [char*] is the [string] of the bytes
      before its terminating NUL; [c_str] cuts a [std::string] there.
    - body bytes are [list byte].
    - C integers are [Z], a conversion between widths is written out.
    - the request object is a record, every member function takes the
      record and returns the updated one; what a function does to its
      collaborators (session factory, content provider, clock, libcurl)
      goes through an explicit [World].
    - a null pointer dereference and a drive loop that is still running
      when the scripted transport has nothing more to say are results of
      their own ([NullDeref], [NoReturn]). *)

From Stdlib Require Import ZArith List Bool Lia.
From Stdlib Require Import Strings.Ascii Strings.String Strings.Byte DecimalString.
Import ListNotations.

Local Open Scope string_scope.
Local Open Scope Z_scope.

(** ** C strings *)

Definition NUL : ascii := Ascii.zero.
Definition CR : ascii := "013"%char.
Definition LF : ascii := "010"%char.
Definition CRLF : string := String CR (String LF EmptyString).

(** [std::string::c_str()] seen as a C string: the bytes before the first
    NUL. *)
Fixpoint c_str (s : string) : string :=
  match s with
  | EmptyString => EmptyString
  | String c rest => if Ascii.eqb c NUL then EmptyString else String c (c_str rest)
  end.

(** [tolower] in the C locale, on the byte value. *)
Definition tolower (c : ascii) : Z :=
  let n := Z.of_N (N_of_ascii c) in
  if (65 <=? n) && (n <=? 90) then n + 32 else n.

(** [strcasecmp] of two C strings: the difference of the first pair of
    bytes that differ after [tolower], 0 when there is none. *)
Fixpoint strcasecmp (s1 s2 : string) : Z :=
  match s1, s2 with
  | EmptyString, EmptyString => 0
  | EmptyString, String c2 _ => 0 - tolower c2
  | String c1 _, EmptyString => tolower c1
  | String c1 r1, String c2 r2 =>
      if tolower c1 =? tolower c2 then strcasecmp r1 r2
      else tolower c1 - tolower c2
  end.

(** [std::ostream << long]. *)
Definition show_long (n : Z) : string := NilZero.string_of_int (Z.to_int n).

(** Conversion of an integer to [int] (32 bits, two's complement). *)
Definition to_int (n : Z) : Z := (n + 2 ^ 31) mod 2 ^ 32 - 2 ^ 31.

(** ** Status *)

(** The members of [StatusCode::Code] the two files name, and two of the
    codes a session factory reports. *)
Inductive StatusCode : Type :=
| OK
| UriParsingError
| SessionCreationError
| ConnectionProblem
| OperationTimeout
| AlreadyRunning
| InvalidArgument.

Definition StatusCode_eqb (a b : StatusCode) : bool :=
  match a, b with
  | OK, OK | UriParsingError, UriParsingError
  | SessionCreationError, SessionCreationError
  | ConnectionProblem, ConnectionProblem
  | OperationTimeout, OperationTimeout
  | AlreadyRunning, AlreadyRunning
  | InvalidArgument, InvalidArgument => true
  | _, _ => false
  end.

(** Modelled from the spec: the [Status] class (its header is not among the
    sources). [Status()] is success; [Status(scope, code, message)] is a
    failure of that code; every failure is returned as a status value. *)
Inductive Status : Type :=
| StatusOk
| StatusError (scope : string) (code : StatusCode) (message : string).

Definition ok (st : Status) : bool :=
  match st with StatusOk => true | StatusError _ _ _ => false end.

Definition getStatusCodeOf (st : Status) : StatusCode :=
  match st with StatusOk => OK | StatusError _ c _ => c end.

(** ** Uri (davixuri.cpp) *)

(** neon's [ne_uri]; a [char*] field is [None] when NULL. *)
Record ne_uri : Type := mk_ne_uri {
  scheme : option string;
  host : option string;
  userinfo : option string;
  port : Z;
  path : option string;
  query : option string;
  fragment : option string
}.

(** [memset(&my_uri, 0, sizeof(my_uri))]. *)
Definition ne_uri_zero : ne_uri := mk_ne_uri None None None 0 None None None.

Definition set_port (u : ne_uri) (p : Z) : ne_uri :=
  mk_ne_uri (scheme u) (host u) (userinfo u) p (path u) (query u) (fragment u).

Record UriPrivate : Type := mk_UriPrivate {
  my_uri : ne_uri;
  code : StatusCode;
  proto : string;
  d_path : string;
  d_host : string;
  d_query : string;
  query_and_path : string
}.

(** [UriPrivate::UriPrivate()]. *)
Definition UriPrivate_new : UriPrivate :=
  mk_UriPrivate ne_uri_zero UriParsingError "" "" "" "" "".

(** [UriPrivate::UriPrivate(const UriPrivate &)]: [ne_uri_copy] and the six
    members, one by one. *)
Definition UriPrivate_copy (orig : UriPrivate) : UriPrivate :=
  mk_UriPrivate (my_uri orig) (code orig) (proto orig) (d_path orig)
                (d_host orig) (d_query orig) (query_and_path orig).

Record Uri : Type := mk_Uri {
  uri_string : string;
  d_ptr : UriPrivate
}.

Section UriOperations.

(** neon's parser, which is not part of the repository: the return code
    (0 is success) and the [ne_uri] it leaves behind. *)
Variable ne_uri_parse : string -> Z * ne_uri.

(** [UriPrivate::parsing]. *)
Definition parsing (d : UriPrivate) (uri_str : string) : UriPrivate :=
  let '(rc, u) := ne_uri_parse (c_str uri_str) in
  let with_uri (u' : ne_uri) : UriPrivate :=
    mk_UriPrivate u' (code d) (proto d) (d_path d) (d_host d) (d_query d)
                  (query_and_path d) in
  if rc =? 0 then
    match scheme u, path u, host u with
    | Some sch, Some pth, Some hst =>
        let u1 := if (port u =? 0) && (strcasecmp sch "http" =? 0)
                  then set_port u 80 else u in
        let u2 := if (port u1 =? 0) && (strcasecmp sch "https" =? 0)
                  then set_port u1 443 else u1 in
        if port u2 =? 0 then with_uri u2
        else
          match query u2 with
          | Some q => mk_UriPrivate u2 OK sch pth hst q (pth ++ "?" ++ q)
          | None => mk_UriPrivate u2 OK sch pth hst (d_query d) pth
          end
    | _, _, _ => with_uri u
    end
  else with_uri u.

(** [Uri::Uri()]. *)
Definition Uri_new : Uri := mk_Uri "" UriPrivate_new.

(** [Uri::Uri(const std::string &)]. *)
Definition Uri_of_string (uri : string) : Uri :=
  mk_Uri uri (parsing UriPrivate_new uri).


(** [Uri::operator=]: a new [d_ptr] copied from [orig]; [uri_string] is
    not assigned. *)
Definition Uri_assign (this orig : Uri) : Uri :=
  mk_Uri (uri_string this) (UriPrivate_copy (d_ptr orig)).

Definition getStatus (u : Uri) : StatusCode := code (d_ptr u).

Definition code_is_OK (u : Uri) : bool := StatusCode_eqb (code (d_ptr u)) OK.

(** [void_str]. *)
Definition void_str : string := "".

Definition getPort (u : Uri) : Z :=
  if negb (code_is_OK u) then -1 else to_int (port (my_uri (d_ptr u))).

Definition getHost (u : Uri) : string :=
  if negb (code_is_OK u) then void_str else d_host (d_ptr u).

Definition getString (u : Uri) : string := uri_string u.

Definition getProtocol (u : Uri) : string :=
  if negb (code_is_OK u) then void_str else proto (d_ptr u).

Definition getPath (u : Uri) : string :=
  if negb (code_is_OK u) then void_str else d_path (d_ptr u).

Definition getPathAndQuery (u : Uri) : string :=
  if negb (code_is_OK u) then void_str else query_and_path (d_ptr u).

Definition getQuery (u : Uri) : string :=
  if negb (code_is_OK u) then void_str else d_query (d_ptr u).

End UriOperations.

(** ** Collaborators of the request *)

Definition HeaderLine : Type := (string * string)%type.

(** [RequestParams], as far as the request looks into it:
    [getOperationTimeout()->tv_sec]. *)
Record RequestParams : Type := mk_RequestParams {
  operation_timeout_sec : Z
}.

Inductive RequestState : Type := kNotStarted | kStarted | kFinished.

Definition RequestState_eqb (a b : RequestState) : bool :=
  match a, b with
  | kNotStarted, kNotStarted | kStarted, kStarted | kFinished, kFinished => true
  | _, _ => false
  end.

(** Modelled from the spec: [Chrono::TimePoint] (Chrono is not among the
    sources), an optional absolute deadline on the monotonic clock whose
    absence means that the request never times out. [None] is the time
    point for which [isValid()] is false. *)
Definition TimePoint : Type := option Z.

(** Modelled from the spec: [ResponseBuffer] (not among the sources), the
    Response Byte Sink: a FIFO of bytes. [feed] appends to the tail;
    [consume] removes and returns up to [max_size] bytes from the head,
    fewer (also none) when fewer are there. *)
Definition ResponseBuffer : Type := list byte.

Definition feed (buf : ResponseBuffer) (bytes : list byte) : ResponseBuffer :=
  (buf ++ bytes)%list.

Definition consume (buf : ResponseBuffer) (max_size : N)
  : Z * list byte * ResponseBuffer :=
  let out := firstn (N.to_nat max_size) buf in
  (Z.of_nat (List.length out), out, skipn (N.to_nat max_size) buf).

(** Modelled from the spec: [ContentProvider] (not among the sources), a
    rewindable producer of the outbound body. [pullBytes] hands out up to
    [max] bytes and 0 at the end of the body, or a negative number when the
    producer is broken; [rewind] goes back to the start. *)
Record ContentProvider : Type := mk_ContentProvider {
  cp_body : list byte;
  cp_pos : nat;
  cp_errc : Z
}.

Definition pullBytes (cp : ContentProvider) (max : Z)
  : Z * list byte * ContentProvider :=
  if cp_errc cp <? 0 then (cp_errc cp, [], cp)
  else
    let out := firstn (Z.to_nat max) (skipn (cp_pos cp) (cp_body cp)) in
    (Z.of_nat (List.length out), out,
     mk_ContentProvider (cp_body cp) (cp_pos cp + List.length out) (cp_errc cp)).

Definition rewind (cp : ContentProvider) : ContentProvider :=
  mk_ContentProvider (cp_body cp) 0 (cp_errc cp).

(** What [curl_easy_setopt] has been given for a handle. *)
Inductive CurlOption : Type :=
| CURLOPT_CUSTOMREQUEST (verb : string)
| CURLOPT_URL (url : string)
| CURLOPT_HEADERFUNCTION
| CURLOPT_HEADERDATA
| CURLOPT_WRITEFUNCTION
| CURLOPT_WRITEDATA
| CURLOPT_READFUNCTION
| CURLOPT_READDATA
| CURLOPT_HTTPHEADER (slist : list string).

(** A [CurlSession] with its handle: the options set on the handle, in the
    order they were set, and what [CURLINFO_RESPONSE_CODE] reads (0 until
    a response has come). *)
Record CurlSession : Type := mk_CurlSession {
  session_id : nat;
  options : list CurlOption;
  response_code : Z
}.

Definition curl_easy_setopt (s : CurlSession) (o : CurlOption) : CurlSession :=
  mk_CurlSession (session_id s) (options s ++ [o]) (response_code s).

(** What libcurl does to the request during one [curl_multi_perform]. *)
Inductive CurlEvent : Type :=
| OnStatus (code : Z)              (* the status line has been read *)
| OnHeader (line : string)         (* header callback, on size*nitems bytes *)
| OnBody (chunk : list byte)       (* write callback, on size*nmemb bytes *)
| OnRead (size nitems : Z).        (* read callback *)

Record PerformResult : Type := mk_PerformResult {
  events : list CurlEvent;
  result : Z;
  still_running : Z
}.

Definition CURLM_OK : Z := 0.

(** Calls that leave the request object. *)
Inductive Call : Type :=
| CallClockNow
| CallProvideSession (uri : Uri) (params : RequestParams)
| CallRewind
| CallPullBytes (max : Z)
| CallPerform.

(** Everything outside the request object: the reading of the monotonic
    clock, the content provider the request borrows, what the transport
    will do on the coming [curl_multi_perform] calls, what it has been sent
    as body, and the calls made so far (oldest first). *)
Record World : Type := mk_World {
  clock : Z;
  provider : ContentProvider;
  transport : list PerformResult;
  sent : list byte;
  calls : list Call
}.

Definition record_call (w : World) (c : Call) : World :=
  mk_World (clock w) (provider w) (transport w) (sent w) (calls w ++ [c]).

Definition set_provider (w : World) (cp : ContentProvider) : World :=
  mk_World (clock w) cp (transport w) (sent w) (calls w).

Definition set_transport (w : World) (t : list PerformResult) : World :=
  mk_World (clock w) (provider w) t (sent w) (calls w).

Definition add_sent (w : World) (bytes : list byte) : World :=
  mk_World (clock w) (provider w) (transport w) (sent w ++ bytes) (calls w).

Definition set_clock (w : World) (now : Z) : World :=
  mk_World now (provider w) (transport w) (sent w) (calls w).

(** How a call ends. *)
Inductive outcome (A : Type) : Type :=
| Done (a : A)     (* it returns *)
| NullDeref        (* it goes through a null pointer *)
| NoReturn.        (* it is still in its loop when the script ends *)

Arguments Done {A} a.
Arguments NullDeref {A}.
Arguments NoReturn {A}.

(** ** StandaloneCurlRequest *)

Record Request : Type := mk_Request {
  _reuse_session : bool;
  _uri : Uri;
  _verb : string;
  _params : RequestParams;
  _headers : list HeaderLine;
  _req_flag : Z;
  _content_provider : bool;     (* the pointer is not NULL *)
  _deadline : TimePoint;
  _state : RequestState;
  _chunklist : list string;
  _received_headers : bool;
  _session : option CurlSession; (* [None] is the null pointer *)
  _response_headers : list (string * string);
  _response_buffer : ResponseBuffer
}.

(** The constructor. *)
Definition Request_new (reuseSession : bool) (uri : Uri) (verb : string)
    (params : RequestParams) (headers : list HeaderLine) (reqFlag : Z)
    (contentProvider : bool) (deadline : TimePoint) : Request :=
  mk_Request reuseSession uri verb params headers reqFlag contentProvider
             deadline kNotStarted [] false None [] [].

Definition set_state (r : Request) (s : RequestState) : Request :=
  mk_Request (_reuse_session r) (_uri r) (_verb r) (_params r) (_headers r)
    (_req_flag r) (_content_provider r) (_deadline r) s (_chunklist r)
    (_received_headers r) (_session r) (_response_headers r)
    (_response_buffer r).

Definition set_chunklist (r : Request) (l : list string) : Request :=
  mk_Request (_reuse_session r) (_uri r) (_verb r) (_params r) (_headers r)
    (_req_flag r) (_content_provider r) (_deadline r) (_state r) l
    (_received_headers r) (_session r) (_response_headers r)
    (_response_buffer r).

Definition set_received_headers (r : Request) (b : bool) : Request :=
  mk_Request (_reuse_session r) (_uri r) (_verb r) (_params r) (_headers r)
    (_req_flag r) (_content_provider r) (_deadline r) (_state r)
    (_chunklist r) b (_session r) (_response_headers r) (_response_buffer r).

Definition set_session (r : Request) (s : option CurlSession) : Request :=
  mk_Request (_reuse_session r) (_uri r) (_verb r) (_params r) (_headers r)
    (_req_flag r) (_content_provider r) (_deadline r) (_state r)
    (_chunklist r) (_received_headers r) s (_response_headers r)
    (_response_buffer r).

Definition set_response_headers (r : Request) (h : list (string * string))
  : Request :=
  mk_Request (_reuse_session r) (_uri r) (_verb r) (_params r) (_headers r)
    (_req_flag r) (_content_provider r) (_deadline r) (_state r)
    (_chunklist r) (_received_headers r) (_session r) h (_response_buffer r).

Definition set_response_buffer (r : Request) (b : ResponseBuffer) : Request :=
  mk_Request (_reuse_session r) (_uri r) (_verb r) (_params r) (_headers r)
    (_req_flag r) (_content_provider r) (_deadline r) (_state r)
    (_chunklist r) (_received_headers r) (_session r) (_response_headers r) b.

Section StandaloneCurlRequest.

(** Parts of the repository and of its libraries that the request calls
    and whose code is elsewhere: the error scope string, the header line
    parser ([getKey], [getValue] of a [HeaderlineParser] on a line),
    neon's URI parser, and the session factory, which answers with a
    status and a session pointer. *)
Variable davix_scope_http_request : string.
Variable HeaderlineParser : string -> string * string.
Variable ne_uri_parse : string -> Z * ne_uri.
Variable provideCurlSession : Uri -> RequestParams -> Status * option CurlSession.

(** [feedResponseHeader]. *)
Definition feedResponseHeader (r : Request) (header : string) : Request :=
  if String.eqb header CRLF then set_received_headers r true
  else
    let parser := HeaderlineParser header in
    set_response_headers r
      (_response_headers r ++ [(fst parser, snd parser)]).

(** [header_callback]: the request after the call and the returned
    number of bytes. *)
Definition header_callback (line : string) (req : Request) : Request * Z :=
  (feedResponseHeader req line, Z.of_nat (String.length line)).

(** [write_callback], on the response buffer of the request. *)
Definition write_callback (chunk : list byte) (buff : ResponseBuffer)
  : ResponseBuffer * Z :=
  (feed buff chunk, Z.of_nat (List.length chunk)).

(** [read_callback]: what is handed to libcurl, its length, and the
    provider afterwards. [size * nitems] is a [size_t] product. *)
Definition read_callback (size nitems : Z) (cp : ContentProvider)
  : Z * list byte * ContentProvider :=
  let bytes := (size * nitems) mod 2 ^ 64 in
  let '(retval, data, cp') := pullBytes cp bytes in
  if retval <? 0 then (0, [], cp') else (retval, data, cp').

(** [getAnswerHeader]: the returned bool and [value] after the call. *)
Fixpoint find_header (hs : list (string * string)) (header_name value : string)
  : bool * string :=
  match hs with
  | [] => (false, value)
  | h :: rest =>
      if String.eqb (fst h) header_name then (true, snd h)
      else find_header rest header_name value
  end.

Definition getAnswerHeader (r : Request) (header_name value : string)
  : bool * string :=
  find_header (_response_headers r) header_name value.

(** [getAnswerHeaders]: the vector after the call and the returned size. *)
Definition getAnswerHeaders (r : Request) : list (string * string) * Z :=
  (_response_headers r, Z.of_nat (List.length (_response_headers r))).

(** [checkTimeout]. The clock is read only for a valid deadline. *)
Definition checkTimeout (r : Request) (w : World) : Status * World :=
  match _deadline r with
  | Some deadline =>
      let w' := record_call w CallClockNow in
      if deadline <? clock w then
        (StatusError davix_scope_http_request OperationTimeout
           ("timeout of " ++ show_long (operation_timeout_sec (_params r)) ++ "s"),
         w')
      else (StatusOk, w')
  | None => (StatusOk, w)
  end.

(** One event of the transport, through the callbacks [startRequest] has
    registered: the header and write callbacks always, the read callback
    when there is a content provider. *)
Definition deliver (e : CurlEvent) (rw : Request * World) : Request * World :=
  let '(r, w) := rw in
  match e with
  | OnStatus c =>
      (set_session r
         (option_map (fun s => mk_CurlSession (session_id s) (options s) c)
                     (_session r)), w)
  | OnHeader line => (fst (header_callback line r), w)
  | OnBody chunk =>
      (set_response_buffer r (fst (write_callback chunk (_response_buffer r))), w)
  | OnRead size nitems =>
      if _content_provider r then
        let '(_, data, cp') := read_callback size nitems (provider w) in
        (r, add_sent (set_provider
                        (record_call w (CallPullBytes ((size * nitems) mod 2 ^ 64)))
                        cp') data)
      else (r, w)
  end.

Definition deliver_all (es : list CurlEvent) (rw : Request * World)
  : Request * World :=
  fold_left (fun acc e => deliver e acc) es rw.

(** The loop [while(still_running != 0)] of [startRequest], which is
    entered with [still_running = 1]: one [curl_multi_perform] per entry
    of the script. *)
Fixpoint drive (script : list PerformResult) (r : Request) (w : World)
  : outcome (Request * World) :=
  match script with
  | [] => NoReturn
  | p :: rest =>
      let '(r', w') :=
        deliver_all (events p)
                    (r, set_transport (record_call w CallPerform) rest) in
      if negb (result p =? CURLM_OK) then Done (r', w')
      else if still_running p =? 0 then Done (r', w')
      else drive rest r' w'
  end.

(** [startRequest]. *)
Definition startRequest (r : Request) (w : World)
  : outcome (Status * Request * World) :=
  if negb (RequestState_eqb (_state r) kNotStarted) then Done (StatusOk, r, w)
  else
    let '(st, w1) := checkTimeout r w in
    if negb (ok st) then Done (st, r, w1)
    else
      let '(st', session) := provideCurlSession (_uri r) (_params r) in
      let r1 := set_session r session in
      let w2 := record_call w1 (CallProvideSession (_uri r) (_params r)) in
      if negb (ok st') then Done (st', r1, w2)
      else
        match session with
        | None => NullDeref
        | Some handle =>
            let h1 := curl_easy_setopt handle (CURLOPT_CUSTOMREQUEST (c_str (_verb r))) in
            let h2 := curl_easy_setopt h1 (CURLOPT_URL (c_str (getString (_uri r)))) in
            let h3 := curl_easy_setopt h2 CURLOPT_HEADERFUNCTION in
            let h4 := curl_easy_setopt h3 CURLOPT_HEADERDATA in
            let h5 := curl_easy_setopt h4 CURLOPT_WRITEFUNCTION in
            let h6 := curl_easy_setopt h5 CURLOPT_WRITEDATA in
            let '(h7, w3) :=
              if _content_provider r then
                (curl_easy_setopt
                   (curl_easy_setopt h6 CURLOPT_READFUNCTION) CURLOPT_READDATA,
                 set_provider (record_call w2 CallRewind) (rewind (provider w2)))
              else (h6, w2) in
            let chunklist :=
              (_chunklist r
               ++ map (fun h => c_str (fst h ++ ": " ++ snd h)) (_headers r))%list in
            let h8 := curl_easy_setopt h7 (CURLOPT_HTTPHEADER chunklist) in
            let r2 := set_chunklist (set_session r (Some h8)) chunklist in
            match drive (transport w3) r2 w3 with
            | Done (r3, w4) => Done (StatusOk, set_state r3 kStarted, w4)
            | NullDeref => NullDeref
            | NoReturn => NoReturn
            end
        end.

(** [readBlock]: the returned number, the bytes written to [buffer],
    [st] after the call, the request and the world. *)
Definition readBlock (r : Request) (w : World) (max_size : N) (st : Status)
  : Z * list byte * Status * Request * World :=
  match _session r with
  | None =>
      (-1, [],
       StatusError davix_scope_http_request AlreadyRunning
                   "Request has not been started yet", r, w)
  | Some _ =>
      if (max_size =? 0)%N then (0, [], st, r, w)
      else
        let '(st1, w1) := checkTimeout r w in
        if negb (ok st1) then (-1, [], st1, r, w1)
        else
          let '(n, data, buf') := consume (_response_buffer r) max_size in
          (n, data, StatusOk, set_response_buffer r buf', w1)
  end.

(** [endRequest]. *)
Definition endRequest (r : Request) : Status * Request :=
  (StatusOk, set_state r kFinished).

(** [getState]. *)
Definition getState (r : Request) : RequestState := _state r.

(** [getStatusCode]: [_session] is dereferenced as it is. *)
Definition getStatusCode (r : Request) : outcome Z :=
  match _session r with
  | None => NullDeref
  | Some s => Done (to_int (response_code s))
  end.

(** [doNotReuseSession]: the body is empty. *)
Definition doNotReuseSession (r : Request) : Request := r.

(** The loop of [obtainRedirectedLocation]; [out = Uri(it->second)] goes
    through [Uri::operator=]. *)
Fixpoint find_location (hs : list (string * string)) (out : Uri) : Status * Uri :=
  match hs with
  | [] =>
      (StatusError davix_scope_http_request InvalidArgument
                   "Could not find Location header in answer headers", out)
  | h :: rest =>
      if strcasecmp "location" (c_str (fst h)) =? 0 then
        (StatusOk, Uri_assign out (Uri_of_string ne_uri_parse (snd h)))
      else find_location rest out
  end.

(** [obtainRedirectedLocation]: the status and [out] after the call. *)
Definition obtainRedirectedLocation (r : Request) (out : Uri) : Status * Uri :=
  match _session r with
  | None =>
      (StatusError davix_scope_http_request InvalidArgument
         "Request not active, impossible to obtain redirected location", out)
  | Some _ => find_location (_response_headers r) out
  end.

End StandaloneCurlRequest.

(** ** Sequences of calls *)

(** The test of [checkTimeout] on its own: the deadline is valid and lies
    before [now]. *)
Definition elapsed (deadline : TimePoint) (now : Z) : bool :=
  match deadline with
  | Some d => d <? now
  | None => false
  end.

(** The transport handing the chunks of a body to the write callback, one
    after the other. *)
Definition write_all (chunks : list (list byte)) (buff : ResponseBuffer)
  : ResponseBuffer :=
  fold_left (fun b chunk => fst (write_callback chunk b)) chunks buff.

(** [consume] called once per requested size; the bytes handed out, in
    order, and the buffer that is left. *)
Fixpoint consume_seq (buf : ResponseBuffer) (sizes : list N)
  : list byte * ResponseBuffer :=
  match sizes with
  | [] => ([], buf)
  | m :: rest =>
      let '(_, out, buf') := consume buf m in
      let '(more, buf'') := consume_seq buf' rest in
      ((out ++ more)%list, buf'')
  end.

Section CallSequences.

Variable davix_scope_http_request : string.

(** [readBlock] called once per entry [(now, max_size)], the clock
    standing at [now] during the call and the same [Status] object handed
    to every call: the bytes written to the buffers, in order, the
    returned numbers, and the status, request and world at the end. *)
Fixpoint readBlocks (r : Request) (w : World) (st : Status)
    (reads : list (Z * N))
  : list byte * list Z * Status * Request * World :=
  match reads with
  | [] => ([], [], st, r, w)
  | (now, max_size) :: rest =>
      let '(n, data, st1, r1, w1) :=
        readBlock davix_scope_http_request r (set_clock w now) max_size st in
      let '(more, ns, st2, r2, w2) := readBlocks r1 w1 st1 rest in
      ((data ++ more)%list, n :: ns, st2, r2, w2)
  end.

End CallSequences.

Definition total_size (sizes : list N) : nat :=
  fold_right (fun m acc => (N.to_nat m + acc)%nat) 0%nat sizes.

(** ** Sample collaborators and requests *)

Definition bytes_of_string (s : string) : list byte :=
  map byte_of_ascii (list_ascii_of_string s).

(** Modelled from the spec: the Header Line Parser (HeaderlineParser.hpp is
    not among the sources). The line is split at its first colon; the name
    is what stands before it and the value what stands after it, both with
    the surrounding whitespace and the line terminator trimmed; a line
    with no colon is all name. *)
Definition is_space (c : ascii) : bool :=
  let n := N_of_ascii c in
  ((n =? 32) || (n =? 9) || (n =? 10) || (n =? 13) || (n =? 11) || (n =? 12))%N.

Fixpoint ltrim (s : list ascii) : list ascii :=
  match s with
  | c :: rest => if is_space c then ltrim rest else s
  | [] => []
  end.

Definition trim (s : string) : string :=
  string_of_list_ascii (rev (ltrim (rev (ltrim (list_ascii_of_string s))))).

Fixpoint split_colon (s : string) : string * string :=
  match s with
  | EmptyString => (EmptyString, EmptyString)
  | String c rest =>
      if Ascii.eqb c ":"%char then (EmptyString, rest)
      else let '(k, v) := split_colon rest in (String c k, v)
  end.

Definition HeaderlineParser_model (line : string) : string * string :=
  let '(k, v) := split_colon line in (trim k, trim v).

(** What neon answers on the one URL the examples use, and a failure on
    every other string. *)
Definition sample_ne_uri_parse (s : string) : Z * ne_uri :=
  if String.eqb s "http://example.org/moved" then
    (0, mk_ne_uri (Some "http") (Some "example.org") None 0 (Some "/moved")
                  None None)
  else (1, ne_uri_zero).

Definition sample_scope : string := "Davix::HttpRequest".

Definition sample_session : CurlSession := mk_CurlSession 1 [] 0.

(** A factory that always has a session. *)
Definition sample_factory (_ : Uri) (_ : RequestParams)
  : Status * option CurlSession :=
  (StatusOk, Some sample_session).

Definition sample_params : RequestParams := mk_RequestParams 5.

Definition sample_uri : Uri :=
  Uri_of_string sample_ne_uri_parse "http://example.org/moved".

(** A GET with no content provider and its deadline at 5000. *)
Definition sample_request : Request :=
  Request_new true sample_uri "GET" sample_params [("Accept", "*/*")] 0 false
              (Some 5000).

(** A transport that answers 200 with two headers and the body
    [hello world] in two chunks, over two [curl_multi_perform] calls. *)
Definition sample_transport : list PerformResult :=
  [ mk_PerformResult
      [ OnStatus 200;
        OnHeader ("Content-Type: text/plain" ++ CRLF);
        OnHeader ("Content-Length: 11" ++ CRLF);
        OnHeader CRLF;
        OnBody (bytes_of_string "hello ") ] CURLM_OK 1;
    mk_PerformResult [ OnBody (bytes_of_string "world") ] CURLM_OK 0 ].

Definition sample_world : World :=
  mk_World 1000 (mk_ContentProvider [] 0 0) sample_transport [] [].

(** The sample request after a [startRequest] that went through: started,
    with a session, the response headers and the body in the sink. *)
Definition started_request : Request :=
  mk_Request true sample_uri "GET" sample_params [("Accept", "*/*")] 0 false
    (Some 5000) kStarted ["Accept: */*"] true
    (Some (mk_CurlSession 1
             [ CURLOPT_CUSTOMREQUEST "GET";
               CURLOPT_URL "http://example.org/moved";
               CURLOPT_HEADERFUNCTION; CURLOPT_HEADERDATA;
               CURLOPT_WRITEFUNCTION; CURLOPT_WRITEDATA;
               CURLOPT_HTTPHEADER ["Accept: */*"] ] 200))
    [("Content-Type", "text/plain"); ("Content-Length", "11")]
    (bytes_of_string "hello world").

(** The started request had it been answered with a redirect. *)
Definition redirected_request : Request :=
  set_response_headers started_request
    [("Content-Length", "0"); ("LOCATION", "http://example.org/moved")].

Definition started_world : World :=
  mk_World 1000 (mk_ContentProvider [] 0 0) [] []
    [CallClockNow; CallProvideSession sample_uri sample_params;
     CallPerform; CallPerform].

(** ** Vocabulary for the drive loop and the header sequence *)

(** A [curl_multi_perform] after which the loop of [startRequest] is left:
    its result is not [CURLM_OK], or nothing is running any more. *)
Definition stops (p : PerformResult) : bool :=
  negb (result p =? CURLM_OK) || (still_running p =? 0).

(** The calls of the script the loop makes: up to the first one that
    stops it, that one included. *)
Fixpoint performed (script : list PerformResult) : list PerformResult :=
  match script with
  | [] => []
  | p :: rest => if stops p then [p] else p :: performed rest
  end.

Definition all_events (steps : list PerformResult) : list CurlEvent :=
  flat_map events steps.

(** The body bytes, the header lines and the last status among events. *)
Fixpoint bodies (es : list CurlEvent) : list byte :=
  match es with
  | [] => []
  | OnBody chunk :: rest => (chunk ++ bodies rest)%list
  | _ :: rest => bodies rest
  end.

Fixpoint header_lines (es : list CurlEvent) : list string :=
  match es with
  | [] => []
  | OnHeader line :: rest => line :: header_lines rest
  | _ :: rest => header_lines rest
  end.

Definition last_status (es : list CurlEvent) (code0 : Z) : Z :=
  fold_left (fun c e => match e with OnStatus c' => c' | _ => c end) es code0.

Definition is_terminator (line : string) : bool := String.eqb line CRLF.

(** The test of [obtainRedirectedLocation] on one header. *)
Definition names_location (h : string * string) : bool :=
  strcasecmp "location" (c_str (fst h)) =? 0.

(** The order in which the states are meant to be gone through. *)
Definition state_rank (s : RequestState) : nat :=
  match s with kNotStarted => 0 | kStarted => 1 | kFinished => 2 end.

(** What [startRequest] appends to [_chunklist] and sets on the handle. *)
Definition formatted_headers (r : Request) : list string :=
  map (fun h => c_str (fst h ++ ": " ++ snd h)) (_headers r).

Definition start_options (r : Request) : list CurlOption :=
  ([ CURLOPT_CUSTOMREQUEST (c_str (_verb r));
     CURLOPT_URL (c_str (getString (_uri r)));
     CURLOPT_HEADERFUNCTION; CURLOPT_HEADERDATA;
     CURLOPT_WRITEFUNCTION; CURLOPT_WRITEDATA ]
   ++ (if _content_provider r then [CURLOPT_READFUNCTION; CURLOPT_READDATA]
       else [])
   ++ [ CURLOPT_HTTPHEADER (_chunklist r ++ formatted_headers r) ])%list.

(** A factory that cannot connect. *)
Definition failing_factory (_ : Uri) (_ : RequestParams)
  : Status * option CurlSession :=
  (StatusError "Davix::CurlSessionFactory" ConnectionProblem
               "could not connect", None).

(** A PUT with a content provider and no deadline, and a world whose
    provider has been read to the end before. *)
Definition upload_request : Request :=
  Request_new true sample_uri "PUT" sample_params
              [("Content-Type", "text/plain"); ("X-A", "b")] 0 true None.

Definition upload_world : World :=
  mk_World 1000 (mk_ContentProvider (bytes_of_string "payload") 7 0)
    [ mk_PerformResult [ OnRead 1 4; OnRead 1 4; OnRead 1 4 ] CURLM_OK 1;
      mk_PerformResult [ OnStatus 201; OnHeader CRLF ] CURLM_OK 0;
      mk_PerformResult [ OnBody (bytes_of_string "never") ] CURLM_OK 0 ]
    [] [].

(** A transport that breaks on its first call. *)
Definition broken_world : World :=
  mk_World 1000 (mk_ContentProvider [] 0 0)
    [ mk_PerformResult [ OnBody (bytes_of_string "part") ] 1 1 ] [] [].

(** The sample URL followed by a NUL and more bytes. *)
Definition url_with_NUL : string :=
  "http://example.org/moved" ++ String NUL "junk".

(** Calls the drive loop can make. *)
Definition is_transfer_call (c : Call) : bool :=
  match c with
  | CallPerform | CallPullBytes _ => true
  | _ => false
  end.

(** The request after the header and write callbacks have been run on the
    events [es], in closed form. *)
Definition received (parser : string -> string * string) (r : Request)
    (es : list CurlEvent) : Request :=
  mk_Request (_reuse_session r) (_uri r) (_verb r) (_params r) (_headers r)
    (_req_flag r) (_content_provider r) (_deadline r) (_state r)
    (_chunklist r)
    (_received_headers r || existsb is_terminator (header_lines es))
    (option_map
       (fun s => mk_CurlSession (session_id s) (options s)
                                (last_status es (response_code s)))
       (_session r))
    (_response_headers r
     ++ map parser (filter (fun l => negb (is_terminator l)) (header_lines es)))%list
    (_response_buffer r ++ bodies es)%list.

(** The request and the world as [startRequest] has them when it enters
    its loop with the session [handle] of the factory. *)
Definition configured (r : Request) (handle : CurlSession) : Request :=
  set_chunklist
    (set_session r
       (Some (mk_CurlSession (session_id handle)
                             (options handle ++ start_options r)%list
                             (response_code handle))))
    (_chunklist r ++ formatted_headers r)%list.

Definition world_at_loop (scope : string) (r : Request) (w : World) : World :=
  let w2 := record_call (snd (checkTimeout scope r w))
                        (CallProvideSession (_uri r) (_params r)) in
  if _content_provider r
  then set_provider (record_call w2 CallRewind) (rewind (provider w2))
  else w2.

(** * Properties *)

(** ** The samples run *)

Example HeaderlineParser_model_content_type :
  HeaderlineParser_model ("Content-Type: text/plain" ++ CRLF)
  = ("Content-Type", "text/plain").
Proof. reflexivity. Qed.

Example HeaderlineParser_model_no_colon :
  HeaderlineParser_model (" garbage " ++ CRLF) = ("garbage", "").
Proof. reflexivity. Qed.

Example startRequest_sample :
  startRequest sample_scope HeaderlineParser_model sample_factory
               sample_request sample_world
  = Done (StatusOk, started_request, started_world).
Proof. reflexivity. Qed.

Example getStatusCode_sample :
  getStatusCode started_request = Done 200
  /\ getAnswerHeader started_request "Content-Type" "" = (true, "text/plain")
  /\ getAnswerHeader started_request "content-type" "old" = (false, "old").
Proof. repeat split. Qed.

Example readBlocks_sample :
  let '(data, ns, st, r, _) :=
    readBlocks sample_scope started_request started_world StatusOk
               [(1000, 4%N); (1001, 0%N); (1002, 100%N); (1003, 100%N)] in
  data = bytes_of_string "hello world" /\ ns = [4; 0; 7; 0]
  /\ st = StatusOk /\ _response_buffer r = [].
Proof. repeat split. Qed.

(** ** Uri *)

Section UriFacts.

Variable ne_uri_parse : string -> Z * ne_uri.

Lemma code_is_OK_false (u : Uri) :
  getStatus u <> OK -> code_is_OK u = false.
Proof.
  unfold getStatus, code_is_OK.
  destruct (code (d_ptr u)); simpl; congruence.
Qed.

Lemma getString_Uri_of_string (s : string) :
  getString (Uri_of_string ne_uri_parse s) = s.
Proof. reflexivity. Qed.

(** C10: a Uri built from a string whose parsing did not end in [OK] has
    port -1 and the empty string as host, protocol, path, path and query,
    and query, while [getString] is still the string it was built from. *)
Theorem Uri_accessors_when_not_OK (s : string) :
  getStatus (Uri_of_string ne_uri_parse s) <> OK ->
  let u := Uri_of_string ne_uri_parse s in
  getPort u = -1
  /\ getHost u = ""
  /\ getProtocol u = ""
  /\ getPath u = ""
  /\ getPathAndQuery u = ""
  /\ getQuery u = ""
  /\ getString u = s.
Proof.
  intros Hcode u.
  pose proof (code_is_OK_false u Hcode) as Hok.
  unfold getPort, getHost, getProtocol, getPath, getPathAndQuery, getQuery.
  rewrite Hok; simpl.
  repeat split.
Qed.

(** Every way for [parsing] to stop early leaves the code at
    [UriParsingError]. *)
Lemma parsing_fails_on_nonzero (s : string) :
  fst (ne_uri_parse (c_str s)) <> 0 ->
  getStatus (Uri_of_string ne_uri_parse s) = UriParsingError.
Proof.
  intros Hrc. unfold getStatus, Uri_of_string, parsing; simpl.
  destruct (ne_uri_parse (c_str s)) as [rc u]; simpl in *.
  apply Z.eqb_neq in Hrc. now rewrite Hrc.
Qed.

End UriFacts.

Lemma Uri_accessors_when_not_OK_witness :
  getStatus (Uri_of_string sample_ne_uri_parse "not a uri") <> OK
  /\ (let u := Uri_of_string sample_ne_uri_parse "not a uri" in
      getPort u = -1 /\ getHost u = "" /\ getProtocol u = "" /\ getPath u = ""
      /\ getPathAndQuery u = "" /\ getQuery u = ""
      /\ getString u = "not a uri").
Proof.
  split.
  - vm_compute. discriminate.
  - apply (Uri_accessors_when_not_OK sample_ne_uri_parse "not a uri").
    vm_compute. discriminate.
Defined.

(** ** The request *)

Section RequestFacts.

Variable scope : string.
Variable parser : string -> string * string.
Variable ne_uri_parse : string -> Z * ne_uri.
Variable factory : Uri -> RequestParams -> Status * option CurlSession.

(** *** The deadline guard *)

Lemma checkTimeout_elapsed (r : Request) (w : World) :
  elapsed (_deadline r) (clock w) = true ->
  checkTimeout scope r w
  = (StatusError scope OperationTimeout
       ("timeout of " ++ show_long (operation_timeout_sec (_params r)) ++ "s"),
     record_call w CallClockNow).
Proof.
  unfold elapsed, checkTimeout.
  destruct (_deadline r) as [d|]; [intros -> | discriminate].
  reflexivity.
Qed.

Lemma checkTimeout_not_elapsed (r : Request) (w : World) :
  elapsed (_deadline r) (clock w) = false ->
  fst (checkTimeout scope r w) = StatusOk.
Proof.
  unfold elapsed, checkTimeout.
  destruct (_deadline r) as [d|]; [intros -> | intros _]; reflexivity.
Qed.

(** The guard looks at the deadline, the parameters and the clock, at
    nothing else of the request. *)
Lemma checkTimeout_ext (r r' : Request) (w : World) :
  _deadline r' = _deadline r -> _params r' = _params r ->
  checkTimeout scope r' w = checkTimeout scope r w.
Proof. unfold checkTimeout. intros -> ->. reflexivity. Qed.

(** *** startRequest *)

Lemma RequestState_eqb_eq (a b : RequestState) :
  RequestState_eqb a b = true <-> a = b.
Proof. destruct a, b; simpl; split; congruence. Qed.

Lemma startRequest_not_NotStarted (r : Request) (w : World) :
  _state r <> kNotStarted ->
  startRequest scope parser factory r w = Done (StatusOk, r, w).
Proof.
  intros Hstate. unfold startRequest.
  destruct (RequestState_eqb (_state r) kNotStarted) eqn:E; [|reflexivity].
  apply RequestState_eqb_eq in E. contradiction.
Qed.

(** C1: on a request whose state is not [kNotStarted], [startRequest]
    returns success and leaves the request and everything around it as
    they were: no session is asked of the factory, the content provider
    is not rewound, the clock is not read. *)
Theorem startRequest_idempotent (r : Request) (w : World) :
  _state r <> kNotStarted ->
  startRequest scope parser factory r w = Done (StatusOk, r, w).
Proof. apply startRequest_not_NotStarted. Qed.

(** A [startRequest] that reports success leaves a state that is not
    [kNotStarted]. *)
Lemma startRequest_ok_state (r : Request) (w : World)
      (st : Status) (r' : Request) (w' : World) :
  startRequest scope parser factory r w = Done (st, r', w') ->
  ok st = true ->
  _state r' <> kNotStarted.
Proof.
  unfold startRequest.
  destruct (RequestState_eqb (_state r) kNotStarted) eqn:E; simpl.
  - destruct (checkTimeout scope r w) as [st0 w1].
    destruct (ok st0) eqn:E0; simpl.
    + destruct (factory (_uri r) (_params r)) as [st1 session].
      destruct (ok st1) eqn:E1; simpl.
      * destruct session as [handle|]; [|discriminate].
        destruct (_content_provider r);
          match goal with
          | |- context [drive ?P ?s ?a ?b] =>
              destruct (drive P s a b) as [[r3 w4]| |]
          end; try discriminate;
          intros H _; inversion H; subst; simpl; discriminate.
      * intros H Hok. inversion H; subst. congruence.
    + intros H Hok. inversion H; subst. congruence.
  - intros H _. inversion H; subst.
    intros Hs. rewrite Hs in E. discriminate.
Qed.

(** Two calls in a row: when the first one reports success, the second
    one changes nothing. *)
Corollary startRequest_twice (r : Request) (w : World)
      (st : Status) (r' : Request) (w' : World) :
  startRequest scope parser factory r w = Done (st, r', w') ->
  ok st = true ->
  startRequest scope parser factory r' w' = Done (StatusOk, r', w').
Proof.
  intros H Hok. apply startRequest_not_NotStarted.
  exact (startRequest_ok_state r w st r' w' H Hok).
Qed.

(** C2: on a request in state [kNotStarted] whose deadline lies before
    the clock, [startRequest] returns an [OperationTimeout] status; the
    request is as it was, so its state is still [kNotStarted] and its
    session pointer has not been assigned, and the one call it made is the
    reading of the clock: the factory has not been asked. *)
Theorem startRequest_deadline_elapsed (r : Request) (w : World) :
  _state r = kNotStarted ->
  elapsed (_deadline r) (clock w) = true ->
  exists st w',
    startRequest scope parser factory r w = Done (st, r, w')
    /\ getStatusCodeOf st = OperationTimeout
    /\ ok st = false
    /\ getState r = kNotStarted
    /\ calls w' = (calls w ++ [CallClockNow])%list
    /\ provider w' = provider w.
Proof.
  intros Hstate Hel.
  unfold startRequest.
  rewrite Hstate; simpl.
  rewrite (checkTimeout_elapsed r w Hel); simpl.
  do 2 eexists. repeat split. exact Hstate.
Qed.

(** *** The response buffer and readBlock *)

Lemma firstn_plus {A : Type} (m t : nat) (l : list A) :
  firstn (m + t) l = (firstn m l ++ firstn t (skipn m l))%list.
Proof.
  revert l. induction m as [|m IH]; intros l; [reflexivity|].
  destruct l as [|a l]; simpl.
  - now rewrite firstn_nil.
  - now rewrite IH.
Qed.

Lemma write_all_concat (chunks : list (list byte)) (buff : ResponseBuffer) :
  write_all chunks buff = (buff ++ List.concat chunks)%list.
Proof.
  unfold write_all. revert buff.
  induction chunks as [|c chunks IH]; intros buff; simpl.
  - now rewrite app_nil_r.
  - rewrite IH. unfold feed. now rewrite app_assoc.
Qed.

Lemma consume_seq_prefix (sizes : list N) :
  forall buf : ResponseBuffer,
    consume_seq buf sizes
    = (firstn (total_size sizes) buf, skipn (total_size sizes) buf).
Proof.
  induction sizes as [|m sizes IH]; intros buf; simpl.
  - reflexivity.
  - rewrite IH, firstn_plus, skipn_skipn.
    now rewrite (Nat.add_comm (total_size sizes)).
Qed.

(** The body events of the transport reach the response buffer through
    the write callback, and nothing else of the request or the world. *)
Lemma deliver_all_body (chunks : list (list byte)) :
  forall (r : Request) (w : World),
    deliver_all parser (map OnBody chunks) (r, w)
    = (set_response_buffer r (write_all chunks (_response_buffer r)), w).
Proof.
  unfold deliver_all, write_all.
  induction chunks as [|c chunks IH]; intros r w; simpl.
  - now destruct r.
  - rewrite IH. reflexivity.
Qed.

Lemma readBlock_with_session (r : Request) (w : World) (max_size : N)
      (st : Status) :
  _session r <> None ->
  elapsed (_deadline r) (clock w) = false ->
  exists n st' w',
    readBlock scope r w max_size st
    = (n, firstn (N.to_nat max_size) (_response_buffer r), st',
       set_response_buffer r (skipn (N.to_nat max_size) (_response_buffer r)),
       w')
    /\ 0 <= n
    /\ (ok st = true -> ok st' = true).
Proof.
  intros Hs Hel. unfold readBlock.
  destruct (_session r) as [s|]; [clear Hs | congruence].
  destruct (N.eqb_spec max_size 0) as [-> | Hmax].
  - exists 0, st, w. simpl. split; [|split; [lia | auto]].
    now destruct r.
  - pose proof (checkTimeout_not_elapsed r w Hel) as Hok.
    destruct (checkTimeout scope r w) as [st1 w1]; simpl in Hok; subst st1.
    simpl. do 3 eexists. split; [reflexivity|]. split; [lia | auto].
Qed.

Lemma readBlocks_prefix (reads : list (Z * N)) :
  forall (r : Request) (w : World) (st : Status),
    _session r <> None ->
    Forall (fun rd => elapsed (_deadline r) (fst rd) = false) reads ->
    let '(data, ns, st', r', _) := readBlocks scope r w st reads in
    data = firstn (total_size (map snd reads)) (_response_buffer r)
    /\ _response_buffer r' = skipn (total_size (map snd reads)) (_response_buffer r)
    /\ Forall (fun n => 0 <= n) ns
    /\ (ok st = true -> ok st' = true).
Proof.
  induction reads as [|[now max_size] reads IH]; intros r w st Hs Hall.
  - simpl. repeat split; auto.
  - inversion Hall as [|rd rest Hnow Hrest]; subst. simpl in Hnow.
    destruct (readBlock_with_session r (set_clock w now) max_size st Hs Hnow)
      as (n & st1 & w1 & Heq & Hn & Hst).
    simpl. rewrite Heq.
    set (r1 := set_response_buffer r _).
    specialize (IH r1 w1 st1 Hs Hrest).
    destruct (readBlocks scope r1 w1 st1 reads) as [[[[more ns] st2] r2] w2].
    destruct IH as (Hmore & Hbuf & Hns & Hst2).
    subst r1; simpl in *.
    rewrite firstn_plus, Hmore, Hbuf, skipn_skipn.
    rewrite (Nat.add_comm (total_size (map snd reads))).
    repeat split; auto.
Qed.

(** C3: whatever chunks the transport hands to the write callback of a
    request with a session and an empty sink, and whatever sizes the calls
    of [readBlock] ask for (no deadline having run out at any of them), the
    bytes the calls return are, in order, the first so many bytes that
    were delivered as the sizes add up to, and the sink keeps the rest;
    when the sizes add up to the length of the body or more, the calls
    return the body, all of it and nothing else, and the sink is empty.
    The same holds of [consume] called on the sink itself. *)
Theorem readBlock_chunking_invariance (r : Request) (w : World) (st : Status)
      (chunks : list (list byte)) (reads : list (Z * N)) :
  _session r <> None ->
  _response_buffer r = [] ->
  Forall (fun rd => elapsed (_deadline r) (fst rd) = false) reads ->
  let body := List.concat chunks in
  let total := total_size (map snd reads) in
  let fed := deliver_all parser (map OnBody chunks) (r, w) in
  let '(data, ns, _, r', _) := readBlocks scope (fst fed) (snd fed) st reads in
  data = firstn total body
  /\ _response_buffer r' = skipn total body
  /\ Forall (fun n => 0 <= n) ns
  /\ consume_seq (write_all chunks []) (map snd reads)
     = (firstn total body, skipn total body)
  /\ ((List.length body <= total)%nat ->
      data = body /\ _response_buffer r' = []
      /\ consume_seq (write_all chunks []) (map snd reads) = (body, [])).
Proof.
  intros Hs Hbuf Hall body total fed.
  subst fed. rewrite deliver_all_body, Hbuf, write_all_concat. simpl.
  fold body.
  pose proof (readBlocks_prefix reads (set_response_buffer r body) w st Hs Hall)
    as H.
  destruct (readBlocks scope (set_response_buffer r body) w st reads)
    as [[[[data ns] st'] r'] w'].
  simpl in H. fold total in H.
  destruct H as (Hdata & Hrest & Hns & _).
  rewrite consume_seq_prefix. fold total.
  split; [exact Hdata|]. split; [exact Hrest|]. split; [exact Hns|].
  split; [reflexivity|].
  intros Hlen.
  rewrite Hdata, Hrest, firstn_all2, skipn_all2 by exact Hlen.
  repeat split.
Qed.

(** C7: on a request with a session, [readBlock] with [max_size = 0]
    returns 0 at once: no byte is written, the status object, the request
    and the world are as the caller left them, so the clock has not been
    read, whether the deadline has run out or not; with [max_size > 0]
    and a deadline that lies before the clock it returns -1 with an
    [OperationTimeout] status and the sink is as it was. *)
Theorem readBlock_zero_then_deadline (r : Request) (w : World) (st : Status) :
  _session r <> None ->
  readBlock scope r w 0 st = (0, [], st, r, w)
  /\ (forall max_size : N,
         max_size <> 0%N ->
         elapsed (_deadline r) (clock w) = true ->
         exists st',
           readBlock scope r w max_size st
           = (-1, [], st', r, record_call w CallClockNow)
           /\ getStatusCodeOf st' = OperationTimeout
           /\ ok st' = false).
Proof.
  intros Hs. unfold readBlock.
  destruct (_session r) as [s|]; [clear Hs | congruence].
  split; [reflexivity|].
  intros max_size Hmax Hel.
  apply N.eqb_neq in Hmax. rewrite Hmax.
  rewrite (checkTimeout_elapsed r w Hel). simpl.
  eexists. repeat split.
Qed.

(** [readBlock] never looks at [_state]. *)
Lemma readBlock_ignores_state (r : Request) (w : World) (max_size : N)
      (st : Status) (s' : RequestState) :
  readBlock scope (set_state r s') w max_size st
  = (let '(n, data, st', r', w') := readBlock scope r w max_size st in
     (n, data, st', set_state r' s', w')).
Proof.
  unfold readBlock.
  change (_session (set_state r s')) with (_session r).
  change (_response_buffer (set_state r s')) with (_response_buffer r).
  destruct (_session r) as [s|]; [|reflexivity].
  destruct (max_size =? 0)%N; [reflexivity|].
  rewrite (checkTimeout_ext r (set_state r s') w) by reflexivity.
  destruct (checkTimeout scope r w) as [st1 w1].
  destruct (ok st1); reflexivity.
Qed.

(** C9: [endRequest] on a request with a session leaves the session and
    the sink in place, so a [readBlock] after it with [max_size > 0] and a
    deadline that has not run out does not fail with the
    not-started error: it returns success and the first [max_size] bytes
    of the sink, all of them when [max_size] reaches its length. What
    [readBlock] returns is the same for every value of the state field. *)
Theorem readBlock_after_endRequest (r : Request) (w : World) (max_size : N)
      (st : Status) :
  _session r <> None ->
  max_size <> 0%N ->
  elapsed (_deadline r) (clock w) = false ->
  let finished := snd (endRequest r) in
  let out := firstn (N.to_nat max_size) (_response_buffer r) in
  getState finished = kFinished
  /\ _session finished = _session r
  /\ _response_buffer finished = _response_buffer r
  /\ (exists w',
         readBlock scope finished w max_size st
         = (Z.of_nat (List.length out), out, StatusOk,
            set_response_buffer finished
              (skipn (N.to_nat max_size) (_response_buffer r)), w'))
  /\ ((List.length (_response_buffer r) <= N.to_nat max_size)%nat ->
      out = _response_buffer r)
  /\ (forall s' : RequestState,
         readBlock scope (set_state r s') w max_size st
         = (let '(n, data, st', r', w') := readBlock scope r w max_size st in
            (n, data, st', set_state r' s', w'))).
Proof.
  intros Hs Hmax Hel finished out.
  split; [reflexivity|]. split; [reflexivity|]. split; [reflexivity|].
  split; [|split].
  - subst finished. unfold endRequest; simpl.
    rewrite readBlock_ignores_state.
    unfold readBlock.
    destruct (_session r) as [s|]; [clear Hs | congruence].
    apply N.eqb_neq in Hmax. rewrite Hmax.
    pose proof (checkTimeout_not_elapsed r w Hel) as Hok.
    destruct (checkTimeout scope r w) as [st1 w1]; simpl in Hok; subst st1.
    simpl. eexists. reflexivity.
  - intros Hlen. subst out. now apply firstn_all2.
  - intros s'. apply readBlock_ignores_state.
Qed.

(** *** endRequest *)

(** C4, as the code has it: [endRequest] sets the state to [kFinished]
    whatever it was, returns success, and a second call changes nothing
    more; the session pointer (like the sink and everything else) is what
    it was before the call: the session is not released here. *)
Theorem endRequest_finishes_and_keeps_session (r : Request) :
  endRequest r = (StatusOk, set_state r kFinished)
  /\ getState (snd (endRequest r)) = kFinished
  /\ ok (fst (endRequest r)) = true
  /\ endRequest (snd (endRequest r)) = endRequest r
  /\ _session (snd (endRequest r)) = _session r.
Proof. repeat split. Qed.

(** *** getStatusCode *)

Lemma getStatusCode_without_session (r : Request) :
  _session r = None -> getStatusCode r = NullDeref.
Proof. unfold getStatusCode. now intros ->. Qed.

(** C6, what the code does: on a request that has just been constructed,
    and so has no session, [getStatusCode] goes through the null
    [_session] pointer; it does not return 0. *)
Theorem getStatusCode_fresh_request (reuseSession : bool) (uri : Uri)
      (verb : string) (params : RequestParams) (headers : list HeaderLine)
      (reqFlag : Z) (contentProvider : bool) (deadline : TimePoint) :
  getStatusCode (Request_new reuseSession uri verb params headers reqFlag
                             contentProvider deadline)
  = NullDeref
  /\ getStatusCode (Request_new reuseSession uri verb params headers reqFlag
                                contentProvider deadline)
     <> Done 0.
Proof. split; [reflexivity | discriminate]. Qed.

(** *** feedResponseHeader *)

(** C8, as the code has it: the line that is only the terminator sets
    [_received_headers] and nothing else, whatever the parser is (it is not
    run on it); every other line adds the pair the parser makes of it at
    the end of [_response_headers], whether [_received_headers] is set or
    not; so the sequence only ever grows at its end. *)
Theorem feedResponseHeader_appends (r : Request) (line : string) :
  feedResponseHeader parser r CRLF = set_received_headers r true
  /\ _response_headers (feedResponseHeader parser r CRLF) = _response_headers r
  /\ (line <> CRLF ->
      feedResponseHeader parser r line
      = set_response_headers r (_response_headers r ++ [parser line])%list)
  /\ (exists suffix,
         _response_headers (feedResponseHeader parser r line)
         = (_response_headers r ++ suffix)%list).
Proof.
  unfold feedResponseHeader.
  split; [reflexivity|]. split; [reflexivity|]. split.
  - intros Hline. apply String.eqb_neq in Hline. rewrite Hline.
    now destruct (parser line).
  - destruct (String.eqb line CRLF); simpl.
    + exists []. now rewrite app_nil_r.
    + eexists. reflexivity.
Qed.

(** *** obtainRedirectedLocation *)

Lemma obtainRedirectedLocation_no_session (r : Request) (out : Uri) :
  _session r = None ->
  exists msg,
    obtainRedirectedLocation scope ne_uri_parse r out
    = (StatusError scope InvalidArgument msg, out).
Proof. unfold obtainRedirectedLocation. intros ->. eexists. reflexivity. Qed.

Lemma find_location_none (hs : list (string * string)) (out : Uri) :
  Forall (fun h => strcasecmp "location" (c_str (fst h)) <> 0) hs ->
  exists msg,
    find_location scope ne_uri_parse hs out
    = (StatusError scope InvalidArgument msg, out).
Proof.
  induction 1 as [|h hs Hh _ IH]; cbn [find_location].
  - eexists. reflexivity.
  - apply Z.eqb_neq in Hh. rewrite Hh. exact IH.
Qed.

Lemma find_location_first (before after : list (string * string))
      (name value : string) (out : Uri) :
  Forall (fun h => strcasecmp "location" (c_str (fst h)) <> 0) before ->
  strcasecmp "location" (c_str name) = 0 ->
  find_location scope ne_uri_parse (before ++ (name, value) :: after) out
  = (StatusOk, Uri_assign out (Uri_of_string ne_uri_parse value)).
Proof.
  intros Hbefore Hname.
  induction Hbefore as [|h hs Hh _ IH]; cbn [find_location app fst snd].
  - now rewrite Hname.
  - apply Z.eqb_neq in Hh. now rewrite Hh.
Qed.

(** What [Uri::operator=] stores: the parsed part of the right-hand side,
    under the string the left-hand side had. *)
Lemma Uri_assign_fields (this orig : Uri) :
  d_ptr (Uri_assign this orig) = d_ptr orig
  /\ getString (Uri_assign this orig) = getString this.
Proof. split; [now destruct orig as [s []] | reflexivity]. Qed.

(** C5, what the code does: a request with a session whose second
    response header is named LOCATION; [obtainRedirectedLocation] into a
    default-constructed [Uri] returns success, and the [Uri] has the parsed
    members of the header value, but [getString] on it is still the empty
    string of the default-constructed [Uri], not the header value that
    [getString] gives on [Uri(value)]. *)
Theorem obtainRedirectedLocation_string_not_stored :
  let value := "http://example.org/moved" in
  let res := obtainRedirectedLocation scope ne_uri_parse redirected_request Uri_new in
  fst res = StatusOk
  /\ d_ptr (snd res) = d_ptr (Uri_of_string ne_uri_parse value)
  /\ getString (snd res) = ""
  /\ getString (Uri_of_string ne_uri_parse value) = value
  /\ snd res <> Uri_of_string ne_uri_parse value.
Proof.
  intros value res.
  assert (Hres : res = (StatusOk,
                        Uri_assign Uri_new (Uri_of_string ne_uri_parse value)))
    by reflexivity.
  rewrite Hres; cbn [fst snd].
  split; [reflexivity|]. split; [apply Uri_assign_fields|].
  split; [reflexivity|]. split; [reflexivity|].
  intros H. apply (f_equal uri_string) in H. discriminate.
Qed.

End RequestFacts.

(** ** The theorems at the samples *)

Lemma startRequest_idempotent_witness :
  _state started_request <> kNotStarted
  /\ startRequest sample_scope HeaderlineParser_model sample_factory
                  started_request started_world
     = Done (StatusOk, started_request, started_world).
Proof.
  split.
  - simpl. discriminate.
  - apply (startRequest_idempotent sample_scope HeaderlineParser_model
             sample_factory started_request started_world).
    simpl. discriminate.
Defined.

Lemma startRequest_deadline_elapsed_witness :
  let late := set_clock sample_world 6000 in
  _state sample_request = kNotStarted
  /\ elapsed (_deadline sample_request) (clock late) = true
  /\ exists st w',
      startRequest sample_scope HeaderlineParser_model sample_factory
                   sample_request late
      = Done (st, sample_request, w')
      /\ getStatusCodeOf st = OperationTimeout
      /\ ok st = false
      /\ getState sample_request = kNotStarted
      /\ calls w' = (calls late ++ [CallClockNow])%list
      /\ provider w' = provider late.
Proof.
  intros late.
  split; [reflexivity|]. split; [reflexivity|].
  apply (startRequest_deadline_elapsed sample_scope HeaderlineParser_model
           sample_factory sample_request late); reflexivity.
Defined.

Lemma readBlock_chunking_invariance_witness :
  let r := set_response_buffer started_request [] in
  let chunks := [bytes_of_string "hello "; bytes_of_string "world"] in
  let reads := [(1000, 4%N); (1001, 0%N); (1002, 100%N)] in
  let body := List.concat chunks in
  let total := total_size (map snd reads) in
  let fed := deliver_all HeaderlineParser_model (map OnBody chunks)
                         (r, started_world) in
  let '(data, ns, _, r', _) :=
    readBlocks sample_scope (fst fed) (snd fed) StatusOk reads in
  data = firstn total body
  /\ _response_buffer r' = skipn total body
  /\ Forall (fun n => 0 <= n) ns
  /\ consume_seq (write_all chunks []) (map snd reads)
     = (firstn total body, skipn total body)
  /\ ((List.length body <= total)%nat ->
      data = body /\ _response_buffer r' = []
      /\ consume_seq (write_all chunks []) (map snd reads) = (body, [])).
Proof.
  apply (readBlock_chunking_invariance sample_scope HeaderlineParser_model
           (set_response_buffer started_request []) started_world StatusOk
           [bytes_of_string "hello "; bytes_of_string "world"]
           [(1000, 4%N); (1001, 0%N); (1002, 100%N)]).
  - simpl. discriminate.
  - reflexivity.
  - repeat constructor.
Defined.

Lemma readBlock_zero_then_deadline_witness :
  let late := set_clock started_world 6000 in
  _session started_request <> None
  /\ readBlock sample_scope started_request late 0 StatusOk
     = (0, [], StatusOk, started_request, late)
  /\ exists st',
      readBlock sample_scope started_request late 4 StatusOk
      = (-1, [], st', started_request, record_call late CallClockNow)
      /\ getStatusCodeOf st' = OperationTimeout
      /\ ok st' = false.
Proof.
  intros late.
  assert (Hs : _session started_request <> None) by (simpl; discriminate).
  split; [exact Hs|].
  destruct (readBlock_zero_then_deadline sample_scope started_request late
              StatusOk Hs) as [Hzero Hlate].
  split; [exact Hzero|].
  apply (Hlate 4%N); [discriminate | reflexivity].
Defined.

Lemma readBlock_after_endRequest_witness :
  let finished := snd (endRequest started_request) in
  _session started_request <> None
  /\ getState finished = kFinished
  /\ exists w',
      readBlock sample_scope finished started_world 4 StatusOk
      = (4, bytes_of_string "hell", StatusOk,
         set_response_buffer finished (bytes_of_string "o world"), w').
Proof.
  intros finished.
  assert (Hs : _session started_request <> None) by (simpl; discriminate).
  split; [exact Hs|].
  destruct (readBlock_after_endRequest sample_scope started_request
              started_world 4%N StatusOk Hs) as (Hst & _ & _ & Hread & _).
  - discriminate.
  - reflexivity.
  - split; [exact Hst | exact Hread].
Defined.

(** ** Where the code does something else than the specification says *)

(** C4 as the specification has it fails at the started sample request:
    after [endRequest] the state is [kFinished] and the status is success,
    but the request still holds its session. *)
Lemma endRequest_session_released_counterexample :
  ~ (let res := endRequest started_request in
     getState (snd res) = kFinished
     /\ ok (fst res) = true
     /\ endRequest (snd res) = res
     /\ _session (snd res) = None).
Proof. simpl. intros (_ & _ & _ & H). discriminate. Qed.

(** C8 as the specification has it fails at the sample request: the
    terminator line sets [_received_headers], and the header line that
    comes after it is still added to [_response_headers]. *)
Lemma feedResponseHeader_frozen_counterexample :
  let r1 := feedResponseHeader HeaderlineParser_model sample_request CRLF in
  let r2 := feedResponseHeader HeaderlineParser_model r1 ("X-Trailer: 1" ++ CRLF) in
  _received_headers r1 = true
  /\ _response_headers r1 = []
  /\ _response_headers r2 = [("X-Trailer", "1")]
  /\ ~ (_received_headers r1 = true -> _response_headers r2 = _response_headers r1).
Proof.
  repeat split. simpl. intros H. specialize (H eq_refl). discriminate.
Qed.

(** * Further properties of the code *)

(** ** Uri *)

Lemma c_str_idempotent (s : string) : c_str (c_str s) = c_str s.
Proof.
  induction s as [|c s IH]; simpl; [reflexivity|].
  destruct (Ascii.eqb c NUL) eqn:E; simpl; [reflexivity|].
  now rewrite E, IH.
Qed.


Lemma tolower_zero (c : ascii) : tolower c = 0 -> c = NUL.
Proof.
  unfold tolower. intros H.
  assert (Hn : N_of_ascii c = 0%N).
  { destruct ((65 <=? Z.of_N (N_of_ascii c)) && (Z.of_N (N_of_ascii c) <=? 90))
             eqn:E; [|lia].
    apply andb_prop in E. destruct E as [E1 E2].
    apply Z.leb_le in E1. lia. }
  rewrite <- (ascii_N_embedding c), Hn. reflexivity.
Qed.

(** A scheme cannot be both [http] and [https] for [strcasecmp]. *)
Lemma strcasecmp_http_not_https (sch : string) :
  strcasecmp sch "http" = 0 -> strcasecmp sch "https" <> 0.
Proof.
  destruct sch as [|c1 [|c2 [|c3 [|c4 rest]]]];
    cbn [strcasecmp];
    repeat match goal with
           | |- context [if ?b then _ else _] => destruct b eqn:?
           end;
    try (intros H1 H2; vm_compute in H2; discriminate);
    try (intros H1 H2; vm_compute in H1; discriminate);
    try (intros H1 H2;
         match goal with E : (_ =? _) = false |- _ =>
           apply Z.eqb_neq in E; lia end).
  destruct rest as [|c5 rest]; cbn [strcasecmp].
  - intros _ H. vm_compute in H. discriminate.
  - intros H1. apply tolower_zero in H1. subst c5.
    vm_compute. discriminate.
Qed.

Section UriMore.

Variable ne_uri_parse : string -> Z * ne_uri.

Lemma parsing_cases (s : string) :
  let rc := fst (ne_uri_parse (c_str s)) in
  let u := snd (ne_uri_parse (c_str s)) in
  let d := d_ptr (Uri_of_string ne_uri_parse s) in
  (rc = 0
   /\ exists sch pth hst,
       scheme u = Some sch /\ path u = Some pth /\ host u = Some hst
       /\ (port u <> 0 \/ strcasecmp sch "http" = 0 \/ strcasecmp sch "https" = 0)
       /\ code d = OK
       /\ port (my_uri d)
          = (if port u =? 0
             then if strcasecmp sch "http" =? 0 then 80 else 443
             else port u)
       /\ proto d = sch /\ d_path d = pth /\ d_host d = hst
       /\ d_query d = match query u with Some q => q | None => "" end
       /\ query_and_path d
          = match query u with Some q => pth ++ "?" ++ q | None => pth end)
  \/ (code d = UriParsingError
      /\ ~ (rc = 0
            /\ exists sch pth hst,
                scheme u = Some sch /\ path u = Some pth /\ host u = Some hst
                /\ (port u <> 0 \/ strcasecmp sch "http" = 0
                    \/ strcasecmp sch "https" = 0))).
Proof.
  unfold Uri_of_string, parsing; cbn [d_ptr].
  destruct (ne_uri_parse (c_str s)) as [rc u]; cbn [fst snd].
  destruct (Z.eqb_spec rc 0) as [-> | Hrc];
    [| right; split; [reflexivity | intros [H _]; contradiction]].
  destruct u as [[sch|] hst0 ui prt [pth|] qry frg]; cbn [scheme path host];
    try (right; split; [reflexivity|];
         intros (_ & a & b & c & H1 & H2 & _); discriminate).
  destruct hst0 as [hst|];
    [| right; split; [reflexivity|];
       intros (_ & a & b & c & _ & _ & H3 & _); discriminate].
  cbn [port].
  destruct (prt =? 0) eqn:Ep;
    destruct (strcasecmp sch "http" =? 0) eqn:Eh;
    destruct (strcasecmp sch "https" =? 0) eqn:Es;
    cbn [andb set_port port scheme host path query userinfo fragment Z.eqb];
    rewrite ?Ep, ?Es; cbn [andb set_port port Z.eqb];
    rewrite ?Ep;
    pose proof Ep as Ep'; pose proof Eh as Eh'; pose proof Es as Es';
    first [apply Z.eqb_eq in Ep' | apply Z.eqb_neq in Ep'];
    first [apply Z.eqb_eq in Eh' | apply Z.eqb_neq in Eh'];
    first [apply Z.eqb_eq in Es' | apply Z.eqb_neq in Es'].
  all: try (left; split; [reflexivity|]; exists sch, pth, hst;
            destruct qry; cbn; rewrite ?Ep, ?Eh; repeat split; tauto).
  right. split; [reflexivity|].
  intros (_ & a & b & c & H1 & _ & _ & [H | [H | H]]);
    inversion H1; subst; contradiction.
Qed.

Lemma code_OK_accessors (u : Uri) :
  getStatus u = OK ->
  getPort u = to_int (port (my_uri (d_ptr u)))
  /\ getHost u = d_host (d_ptr u)
  /\ getProtocol u = proto (d_ptr u)
  /\ getPath u = d_path (d_ptr u)
  /\ getPathAndQuery u = query_and_path (d_ptr u)
  /\ getQuery u = d_query (d_ptr u).
Proof.
  unfold getStatus, getPort, getHost, getProtocol, getPath, getPathAndQuery,
    getQuery, code_is_OK.
  intros ->. repeat split.
Qed.

(** X1: the status of a [Uri] built from a string is [OK] exactly when
    neon returned 0, left a scheme, a path and a host, and either left a
    port or the scheme is http or https in any case; it is
    [UriParsingError] otherwise, never any other code. *)
Theorem Uri_status_OK_iff (s : string) :
  let rc := fst (ne_uri_parse (c_str s)) in
  let u := snd (ne_uri_parse (c_str s)) in
  (getStatus (Uri_of_string ne_uri_parse s) = OK
   <-> rc = 0
       /\ exists sch pth hst,
           scheme u = Some sch /\ path u = Some pth /\ host u = Some hst
           /\ (port u <> 0 \/ strcasecmp sch "http" = 0
               \/ strcasecmp sch "https" = 0))
  /\ (getStatus (Uri_of_string ne_uri_parse s) <> OK ->
      getStatus (Uri_of_string ne_uri_parse s) = UriParsingError).
Proof.
  intros rc u. subst rc u. unfold getStatus.
  pose proof (parsing_cases s) as H; cbv zeta in H.
  destruct H
    as [(Hrc & sch & pth & hst & H1 & H2 & H3 & H4 & Hcode & _) | [Hcode Hnot]].
  - split; [|intros H; contradiction].
    split; [intros _ | intros _; exact Hcode].
    split; [exact Hrc|]. exists sch, pth, hst. auto.
  - split; [|intros _; exact Hcode].
    split; [intros H; congruence | intros H; contradiction].
Qed.

(** X2: when neon parses the string and leaves scheme, path and host but
    no port, the port is 80 for the scheme http and 443 for the scheme
    https, in any case of the letters, and the [Uri] is in error for every
    other scheme. *)
Theorem Uri_default_port (s : string) (u : ne_uri) (sch pth hst : string) :
  ne_uri_parse (c_str s) = (0, u) ->
  scheme u = Some sch -> path u = Some pth -> host u = Some hst ->
  port u = 0 ->
  let uri := Uri_of_string ne_uri_parse s in
  (strcasecmp sch "http" = 0 -> getStatus uri = OK /\ getPort uri = 80)
  /\ (strcasecmp sch "https" = 0 -> getStatus uri = OK /\ getPort uri = 443)
  /\ (strcasecmp sch "http" <> 0 -> strcasecmp sch "https" <> 0 ->
      getStatus uri = UriParsingError /\ getPort uri = -1).
Proof.
  intros Hparse Hsch Hpth Hhst Hport uri.
  pose proof (parsing_cases s) as H. cbv zeta in H.
  rewrite Hparse in H. cbn [fst snd] in H. subst uri.
  destruct H as [(_ & sch' & pth' & hst' & H1 & H2 & H3 & H4 & Hcode & Hp & _)
                | [Hcode Hnot]].
  - assert (sch' = sch) by congruence. subst sch'.
    rewrite Hport in Hp, H4. change (0 =? 0) with true in Hp. cbv iota in Hp.
    pose proof (code_OK_accessors _ Hcode) as (Hgp & _).
    rewrite Hp in Hgp.
    split; [|split].
    + intros Hh. apply Z.eqb_eq in Hh. rewrite Hh in Hgp.
      split; [exact Hcode | exact Hgp].
    + intros Hs.
      destruct (Z.eqb_spec (strcasecmp sch "http") 0) as [Hh|Hh].
      * exfalso. exact (strcasecmp_http_not_https sch Hh Hs).
      * split; [exact Hcode | exact Hgp].
    + intros Hh Hs. exfalso. destruct H4 as [H|[H|H]]; contradiction.
  - assert (Hgp : getPort (Uri_of_string ne_uri_parse s) = -1).
    { unfold getPort, code_is_OK. now rewrite Hcode. }
    split; [|split].
    + intros Hh. exfalso. apply Hnot. split; [reflexivity|].
      exists sch, pth, hst. tauto.
    + intros Hs. exfalso. apply Hnot. split; [reflexivity|].
      exists sch, pth, hst. tauto.
    + intros _ _. split; [exact Hcode | exact Hgp].
Qed.

(** X3: on a [Uri] whose status is [OK], protocol, host and path are the
    scheme, host and path neon left, the raw port is not 0, and
    [getPathAndQuery] is the path alone when neon left no query and the
    path, a question mark and the query when it left one (also an empty
    one). *)
Theorem Uri_accessors_when_OK (s : string) :
  getStatus (Uri_of_string ne_uri_parse s) = OK ->
  let u := snd (ne_uri_parse (c_str s)) in
  let uri := Uri_of_string ne_uri_parse s in
  scheme u = Some (getProtocol uri)
  /\ host u = Some (getHost uri)
  /\ path u = Some (getPath uri)
  /\ port (my_uri (d_ptr uri)) <> 0
  /\ (port u <> 0 -> getPort uri = to_int (port u))
  /\ match query u with
     | Some q => getQuery uri = q
                 /\ getPathAndQuery uri = getPath uri ++ "?" ++ q
     | None => getQuery uri = "" /\ getPathAndQuery uri = getPath uri
     end.
Proof.
  intros HOK u uri. subst uri.
  pose proof (code_OK_accessors _ HOK) as (Hgp & Hh & Hpr & Hpa & Hpq & Hq).
  pose proof (parsing_cases s) as H; cbv zeta in H. fold u in H.
  destruct H
    as [(Hrc & sch & pth & hst & H1 & H2 & H3 & H4 & Hcode & Hp & Hd1 & Hd2
         & Hd3 & Hd4 & Hd5) | [Hcode _]];
    [|unfold getStatus in HOK; congruence].
  rewrite Hpr, Hh, Hpa, Hgp, Hq, Hpq, Hd1, Hd2, Hd3, Hd4, Hd5, Hp.
  split; [exact H1|]. split; [exact H3|]. split; [exact H2|].
  split; [|split].
  - destruct (Z.eqb_spec (port u) 0); [|assumption].
    destruct (strcasecmp sch "http" =? 0); discriminate.
  - intros Hne. apply Z.eqb_neq in Hne. now rewrite Hne.
  - destruct (query u); split; reflexivity.
Qed.

(** X4: parsing sees the string up to its first NUL only: two strings
    that agree up to there give the same parsed members, while [getString]
    gives each of them back whole. *)
Theorem Uri_parsing_stops_at_NUL (s1 s2 : string) :
  c_str s1 = c_str s2 ->
  d_ptr (Uri_of_string ne_uri_parse s1) = d_ptr (Uri_of_string ne_uri_parse s2)
  /\ getString (Uri_of_string ne_uri_parse s1) = s1
  /\ getString (Uri_of_string ne_uri_parse s2) = s2.
Proof.
  intros H. unfold Uri_of_string, parsing; cbn [d_ptr getString uri_string].
  rewrite H. repeat split.
Qed.


End UriMore.

Lemma Uri_default_port_witness :
  let uri := Uri_of_string sample_ne_uri_parse "http://example.org/moved" in
  getStatus uri = OK /\ getPort uri = 80.
Proof.
  refine (proj1 (Uri_default_port sample_ne_uri_parse
                   "http://example.org/moved"
                   (mk_ne_uri (Some "http") (Some "example.org") None 0
                              (Some "/moved") None None)
                   "http" "/moved" "example.org" _ _ _ _ _) _);
    reflexivity.
Defined.

Lemma Uri_accessors_when_OK_witness :
  getStatus (Uri_of_string sample_ne_uri_parse "http://example.org/moved") = OK
  /\ (let u := snd (sample_ne_uri_parse (c_str "http://example.org/moved")) in
      let uri := Uri_of_string sample_ne_uri_parse "http://example.org/moved" in
      scheme u = Some (getProtocol uri)
      /\ host u = Some (getHost uri)
      /\ path u = Some (getPath uri)
      /\ port (my_uri (d_ptr uri)) <> 0
      /\ (port u <> 0 -> getPort uri = to_int (port u))
      /\ match query u with
         | Some q => getQuery uri = q
                     /\ getPathAndQuery uri = getPath uri ++ "?" ++ q
         | None => getQuery uri = "" /\ getPathAndQuery uri = getPath uri
         end).
Proof.
  split; [reflexivity|].
  apply (Uri_accessors_when_OK sample_ne_uri_parse "http://example.org/moved").
  reflexivity.
Defined.

Lemma Uri_parsing_stops_at_NUL_witness :
  c_str url_with_NUL = c_str "http://example.org/moved"
  /\ d_ptr (Uri_of_string sample_ne_uri_parse url_with_NUL)
     = d_ptr (Uri_of_string sample_ne_uri_parse "http://example.org/moved")
  /\ getString (Uri_of_string sample_ne_uri_parse url_with_NUL) = url_with_NUL.
Proof.
  split; [reflexivity|].
  destruct (Uri_parsing_stops_at_NUL sample_ne_uri_parse url_with_NUL
              "http://example.org/moved" eq_refl) as (H1 & H2 & _).
  split; [exact H1 | exact H2].
Defined.

(** ** The request: deadline, errors and queries *)

Lemma elapsed_later (d : TimePoint) (now later : Z) :
  now <= later -> elapsed d now = true -> elapsed d later = true.
Proof.
  unfold elapsed. destruct d as [d|]; [|discriminate].
  intros Hle H. apply Z.ltb_lt in H. apply Z.ltb_lt. lia.
Qed.

Lemma set_response_buffer_same (r : Request) :
  set_response_buffer r (_response_buffer r) = r.
Proof. now destruct r. Qed.

Section RequestMore.

Variable scope : string.
Variable parser : string -> string * string.
Variable ne_uri_parse : string -> Z * ne_uri.
Variable factory : Uri -> RequestParams -> Status * option CurlSession.

(** X6: [checkTimeout] fails exactly when the request has a deadline
    and the deadline is strictly before the clock, so a deadline equal to
    the clock passes; the failure is an [OperationTimeout]; a request
    with no deadline passes at every clock, without the clock being
    read. *)
Theorem checkTimeout_fails_iff (r : Request) (w : World) :
  (ok (fst (checkTimeout scope r w)) = false
   <-> exists d, _deadline r = Some d /\ d < clock w)
  /\ (ok (fst (checkTimeout scope r w)) = false ->
      getStatusCodeOf (fst (checkTimeout scope r w)) = OperationTimeout)
  /\ (_deadline r = None -> checkTimeout scope r w = (StatusOk, w)).
Proof.
  unfold checkTimeout.
  destruct (_deadline r) as [d|]; cbn.
  - destruct (Z.ltb_spec d (clock w)); cbn.
    + split; [|split; [reflexivity | discriminate]].
      split; [intros _; exists d; auto | reflexivity].
    + split; [|split; discriminate].
      split; [discriminate|]. intros (d' & Hd & Hlt).
      inversion Hd; subst. lia.
  - split; [|split; [discriminate | reflexivity]].
    split; [discriminate | intros (d & Hd & _); discriminate].
Qed.

(** X7: a deadline that has passed stays passed: from then on, at every
    clock that is not earlier, [startRequest] on the request (which is
    left as it was, in state [kNotStarted]) returns an
    [OperationTimeout] status and asks the factory for nothing, and so
    does [readBlock] with [max_size > 0] on a request with a session. *)
Theorem timeout_is_permanent (r : Request) (w w' : World) :
  elapsed (_deadline r) (clock w) = true ->
  clock w <= clock w' ->
  (_state r = kNotStarted ->
   exists st,
     startRequest scope parser factory r w'
     = Done (st, r, record_call w' CallClockNow)
     /\ getStatusCodeOf st = OperationTimeout)
  /\ (forall (max_size : N) (st0 : Status),
         _session r <> None -> max_size <> 0%N ->
         exists st,
           readBlock scope r w' max_size st0
           = (-1, [], st, r, record_call w' CallClockNow)
           /\ getStatusCodeOf st = OperationTimeout).
Proof.
  intros Hel Hle.
  pose proof (elapsed_later _ _ _ Hle Hel) as Hel'.
  split.
  - intros Hstate. unfold startRequest. rewrite Hstate; cbn [RequestState_eqb negb].
    rewrite (checkTimeout_elapsed scope r w' Hel'). cbn.
    eexists. split; reflexivity.
  - intros max_size st0 Hs Hmax. unfold readBlock.
    destruct (_session r); [|congruence].
    apply N.eqb_neq in Hmax. rewrite Hmax.
    rewrite (checkTimeout_elapsed scope r w' Hel'). cbn.
    eexists. split; reflexivity.
Qed.

(** X8: when the factory answers with a failure, [startRequest]
    returns that very status; the state is still [kNotStarted], the
    session pointer is what the factory returned, and beyond the clock
    reading of the deadline test the factory call is the only call made:
    the content provider is not rewound and the transport is not
    driven. *)
Theorem startRequest_factory_failure (r : Request) (w : World)
      (st : Status) (session : option CurlSession) :
  _state r = kNotStarted ->
  elapsed (_deadline r) (clock w) = false ->
  factory (_uri r) (_params r) = (st, session) ->
  ok st = false ->
  let w1 := snd (checkTimeout scope r w) in
  startRequest scope parser factory r w
  = Done (st, set_session r session,
          record_call w1 (CallProvideSession (_uri r) (_params r)))
  /\ getState (set_session r session) = kNotStarted
  /\ transport w1 = transport w
  /\ provider w1 = provider w
  /\ (calls w1 = calls w \/ calls w1 = (calls w ++ [CallClockNow])%list).
Proof.
  intros Hstate Hel Hfac Hok w1. subst w1.
  pose proof (checkTimeout_not_elapsed scope r w Hel) as Hct.
  unfold startRequest. rewrite Hstate; cbn [RequestState_eqb negb].
  unfold checkTimeout in *.
  destruct (_deadline r) as [d|].
  - destruct (d <? clock w); [discriminate|]. cbn.
    rewrite Hfac, Hok. cbn. repeat split; auto.
  - cbn. rewrite Hfac, Hok. cbn. repeat split; auto.
Qed.

(** X9: on a request with no session, [readBlock] returns -1 with an
    [AlreadyRunning] status before it looks at anything else: also for
    [max_size = 0] and also when the deadline has passed; request and
    world are untouched, and an [endRequest] before it changes nothing
    of this. *)
Theorem readBlock_without_session (r : Request) (w : World) (max_size : N)
      (st : Status) :
  _session r = None ->
  (exists msg,
      readBlock scope r w max_size st
      = (-1, [], StatusError scope AlreadyRunning msg, r, w))
  /\ (exists msg,
         readBlock scope (snd (endRequest r)) w max_size st
         = (-1, [], StatusError scope AlreadyRunning msg, snd (endRequest r), w)).
Proof.
  intros Hs. unfold readBlock, endRequest; cbn [snd set_state _session].
  rewrite Hs. split; eexists; reflexivity.
Qed.

(** X10: whatever the arguments, [readBlock] changes nothing of the
    request but the sink, and the bytes it returns followed by the bytes
    left in the sink are the sink as it was; it returns either -1 with
    no byte and a failed status, or the number of bytes it wrote, which
    is not above [max_size]; it never moves the clock, the provider or
    the transport. *)
Theorem readBlock_conserves_sink (r : Request) (w : World) (max_size : N)
      (st : Status) :
  let '(n, data, st', r', w') := readBlock scope r w max_size st in
  (data ++ _response_buffer r')%list = _response_buffer r
  /\ r' = set_response_buffer r (_response_buffer r')
  /\ ((n = -1 /\ data = [] /\ ok st' = false)
      \/ (n = Z.of_nat (List.length data) /\ n <= Z.of_N max_size))
  /\ clock w' = clock w /\ provider w' = provider w
  /\ transport w' = transport w.
Proof.
  unfold readBlock.
  destruct (_session r) as [s|].
  - destruct (N.eqb_spec max_size 0) as [-> | Hmax].
    + cbn. split; [reflexivity|].
      split; [symmetry; apply set_response_buffer_same|].
      split; [right; split; [reflexivity | lia] |]. repeat split.
    + assert (Hw : clock (snd (checkTimeout scope r w)) = clock w
                   /\ provider (snd (checkTimeout scope r w)) = provider w
                   /\ transport (snd (checkTimeout scope r w)) = transport w).
      { unfold checkTimeout. destruct (_deadline r) as [d|];
          [destruct (d <? clock w)|]; repeat split. }
      destruct (checkTimeout scope r w) as [st1 w1]. cbn [snd] in Hw.
      destruct (ok st1) eqn:Hok; cbn [negb consume].
      * cbn [_response_buffer set_response_buffer].
        rewrite firstn_skipn.
        split; [reflexivity|]. split; [reflexivity|].
        split; [|exact Hw]. right. split; [reflexivity|].
        pose proof (firstn_le_length (N.to_nat max_size) (_response_buffer r)).
        lia.
      * cbn. split; [reflexivity|].
        split; [symmetry; apply set_response_buffer_same|].
        split; [left; auto | exact Hw].
  - cbn. split; [reflexivity|].
    split; [symmetry; apply set_response_buffer_same|].
    split; [left; auto |]. repeat split.
Qed.

(** X11: on a request with a session whose deadline has not passed,
    [readBlock] with [max_size > 0] returns the smaller of [max_size] and
    the number of bytes in the sink, so it returns 0 exactly when the sink
    is empty. *)
Theorem readBlock_returns_min (r : Request) (w : World) (max_size : N)
      (st : Status) :
  _session r <> None ->
  max_size <> 0%N ->
  elapsed (_deadline r) (clock w) = false ->
  let n := fst (fst (fst (fst (readBlock scope r w max_size st)))) in
  n = Z.min (Z.of_N max_size) (Z.of_nat (List.length (_response_buffer r)))
  /\ (n = 0 <-> _response_buffer r = []).
Proof.
  intros Hs Hmax Hel. unfold readBlock.
  destruct (_session r); [|congruence].
  pose proof Hmax as Hmax'. apply N.eqb_neq in Hmax'. rewrite Hmax'.
  pose proof (checkTimeout_not_elapsed scope r w Hel) as Hok.
  destruct (checkTimeout scope r w) as [st1 w1]; cbn [fst] in Hok; subst st1.
  cbn [ok negb consume fst].
  rewrite length_firstn.
  split; [lia|].
  destruct (_response_buffer r) as [|b buf]; cbn [List.length].
  - split; [reflexivity | lia].
  - split; [lia | discriminate].
Qed.

(** X12: a request that is ended without ever having got a session can
    not be started any more: [startRequest] after [endRequest] reports
    success but leaves the request as [endRequest] left it, in state
    [kFinished] and with no session, asking the factory for nothing, and
    [readBlock] on it still fails with [AlreadyRunning]. *)
Theorem endRequest_before_start_is_final (r : Request) (w : World) :
  _session r = None ->
  let finished := snd (endRequest r) in
  startRequest scope parser factory finished w = Done (StatusOk, finished, w)
  /\ getState finished = kFinished
  /\ _session finished = None
  /\ forall (max_size : N) (st : Status),
      exists msg,
        readBlock scope finished w max_size st
        = (-1, [], StatusError scope AlreadyRunning msg, finished, w).
Proof.
  intros Hs finished.
  split; [|split; [reflexivity | split; [exact Hs|]]].
  - apply startRequest_not_NotStarted. discriminate.
  - intros max_size st. unfold readBlock. subst finished.
    cbn [endRequest snd set_state _session]. rewrite Hs.
    eexists. reflexivity.
Qed.

End RequestMore.

(** ** The request: response headers and the redirect target *)

Section HeaderLookups.

Variable scope : string.
Variable parser : string -> string * string.
Variable ne_uri_parse : string -> Z * ne_uri.

Lemma find_header_app (hs1 hs2 : list (string * string))
      (name value : string) :
  find_header (hs1 ++ hs2) name value
  = (if fst (find_header hs1 name value) then find_header hs1 name value
     else find_header hs2 name value).
Proof.
  induction hs1 as [|h hs1 IH]; cbn [find_header app fst]; [reflexivity|].
  destruct (String.eqb (fst h) name); [reflexivity | exact IH].
Qed.

Lemma find_header_none (hs : list (string * string)) (name value : string) :
  Forall (fun h => fst h <> name) hs ->
  find_header hs name value = (false, value).
Proof.
  induction 1 as [|h hs Hh _ IH]; cbn [find_header]; [reflexivity|].
  apply String.eqb_neq in Hh. now rewrite Hh.
Qed.

(** X13: [getAnswerHeader] answers with the value of the first header
    whose name is the asked one, byte for byte; headers of that name
    further down the sequence are not seen. *)
Theorem getAnswerHeader_first_match (r : Request)
      (before after : list (string * string)) (name found value : string) :
  _response_headers r = (before ++ (name, found) :: after)%list ->
  Forall (fun h => fst h <> name) before ->
  getAnswerHeader r name value = (true, found).
Proof.
  intros Hhs Hbefore. unfold getAnswerHeader.
  rewrite Hhs, find_header_app, (find_header_none before name value Hbefore).
  cbn [fst find_header]. now rewrite String.eqb_refl.
Qed.

(** X14: [getAnswerHeader] returns false exactly when no header has the
    asked name, and then leaves [value] as the caller passed it. *)
Theorem getAnswerHeader_not_found_iff (r : Request) (name value : string) :
  (fst (getAnswerHeader r name value) = false
   <-> Forall (fun h => fst h <> name) (_response_headers r))
  /\ (fst (getAnswerHeader r name value) = false ->
      snd (getAnswerHeader r name value) = value).
Proof.
  unfold getAnswerHeader.
  induction (_response_headers r) as [|h hs IH]; cbn [find_header].
  - repeat split; auto.
  - destruct (String.eqb_spec (fst h) name) as [Heq | Hne]; cbn [fst snd].
    + split; [|discriminate].
      split; [discriminate|]. intros H. inversion H; subst. contradiction.
    + destruct IH as [[IH1 IH2] IH3].
      split; [|exact IH3].
      split; [intros H; constructor; auto|].
      intros H. inversion H; subst. auto.
Qed.

(** X15: a header line fed after the others is found under its name
    unless an earlier header has that name already, in which case the
    earlier one keeps answering; lookups under every other name are as
    before. *)
Theorem getAnswerHeader_after_feed (r : Request) (line name value : string) :
  line <> CRLF ->
  getAnswerHeader (feedResponseHeader parser r line) name value
  = (if fst (getAnswerHeader r name value) then getAnswerHeader r name value
     else if String.eqb (fst (parser line)) name
          then (true, snd (parser line))
          else (false, value)).
Proof.
  intros Hline. unfold getAnswerHeader, feedResponseHeader.
  apply String.eqb_neq in Hline. rewrite Hline.
  cbn [set_response_headers _response_headers].
  rewrite find_header_app. reflexivity.
Qed.

Lemma find_location_ok_iff (hs : list (string * string)) (out : Uri) :
  (fst (find_location scope ne_uri_parse hs out) = StatusOk
   <-> existsb names_location hs = true)
  /\ (fst (find_location scope ne_uri_parse hs out) <> StatusOk ->
      exists msg,
        find_location scope ne_uri_parse hs out
        = (StatusError scope InvalidArgument msg, out)).
Proof.
  induction hs as [|h hs IH]; cbn [find_location existsb].
  - split; [split; discriminate|]. intros _. eexists. reflexivity.
  - unfold names_location at 1.
    destruct (strcasecmp "location" (c_str (fst h)) =? 0); cbn [orb fst].
    + split; [split; reflexivity|]. intros H. contradiction.
    + exact IH.
Qed.

(** X16: [obtainRedirectedLocation] returns success exactly when the
    request has a session and some response header is named [location]
    for [strcasecmp]; every failure is an [InvalidArgument] and leaves
    [out] as it was. *)
Theorem obtainRedirectedLocation_ok_iff (r : Request) (out : Uri) :
  let res := obtainRedirectedLocation scope ne_uri_parse r out in
  (fst res = StatusOk
   <-> _session r <> None
       /\ existsb names_location (_response_headers r) = true)
  /\ (fst res <> StatusOk ->
      getStatusCodeOf (fst res) = InvalidArgument /\ snd res = out).
Proof.
  unfold obtainRedirectedLocation.
  destruct (_session r) as [s|]; cbn zeta.
  - destruct (find_location_ok_iff (_response_headers r) out) as [Hiff Herr].
    split.
    + rewrite Hiff. split; [intros H; split; [discriminate | exact H] | tauto].
    + intros H. destruct (Herr H) as [msg ->]. split; reflexivity.
  - cbn [fst snd]. split; [|intros _; split; reflexivity].
    split; [discriminate | intros [H _]; congruence].
Qed.

(** X17: [read_callback] turns an error of the content provider into
    the end of the body: when [pullBytes] returns a negative number it
    returns 0 and hands over nothing; otherwise it returns what
    [pullBytes] returned and hands over its bytes; so what it returns is
    never negative. The provider is asked for the [size_t] product of
    [size] and [nitems]. *)
Theorem read_callback_never_negative (size nitems : Z) (cp : ContentProvider) :
  let '(retval, pulled, cp1) := pullBytes cp ((size * nitems) mod 2 ^ 64) in
  let '(n, data, cp') := read_callback size nitems cp in
  0 <= n
  /\ cp' = cp1
  /\ (retval < 0 -> n = 0 /\ data = [])
  /\ (0 <= retval -> n = retval /\ data = pulled).
Proof.
  unfold read_callback.
  destruct (pullBytes cp ((size * nitems) mod 2 ^ 64)) as [[retval pulled] cp1].
  destruct (Z.ltb_spec retval 0); repeat split; auto; lia.
Qed.

End HeaderLookups.

Lemma getAnswerHeader_first_match_witness :
  let r := set_response_headers started_request
             [("Via", "a"); ("Set-Cookie", "first"); ("Set-Cookie", "second")] in
  getAnswerHeader r "Set-Cookie" "" = (true, "first").
Proof.
  apply (getAnswerHeader_first_match _ [("Via", "a")]
           [("Set-Cookie", "second")] "Set-Cookie" "first" "").
  - reflexivity.
  - repeat constructor. cbn. discriminate.
Defined.

Lemma getAnswerHeader_after_feed_witness :
  ("Content-Type: text/html" ++ CRLF) <> CRLF
  /\ getAnswerHeader
       (feedResponseHeader HeaderlineParser_model started_request
                           ("Content-Type: text/html" ++ CRLF))
       "Content-Type" ""
     = (true, "text/plain").
Proof.
  assert (H : ("Content-Type: text/html" ++ CRLF) <> CRLF) by discriminate.
  split; [exact H|].
  rewrite (getAnswerHeader_after_feed HeaderlineParser_model started_request
             _ "Content-Type" "" H).
  reflexivity.
Defined.

(** ** The request: the drive loop *)

Lemma bodies_app (es1 es2 : list CurlEvent) :
  bodies (es1 ++ es2) = (bodies es1 ++ bodies es2)%list.
Proof.
  induction es1 as [|e es1 IH]; [reflexivity|].
  destruct e; cbn [bodies app]; rewrite IH; auto using app_assoc.
Qed.

Section DriveLoop.

Variable scope : string.
Variable parser : string -> string * string.
Variable factory : Uri -> RequestParams -> Status * option CurlSession.

Lemma received_nil (r : Request) : received parser r [] = r.
Proof.
  destruct r as [a b c d e f g h i j k [s|] m n]; unfold received; cbn;
    rewrite ?orb_false_r, ?app_nil_r; [destruct s|]; reflexivity.
Qed.

Lemma deliver_received (e : CurlEvent) (es : list CurlEvent)
      (r : Request) (w : World) :
  received parser (fst (deliver parser e (r, w))) es
  = received parser r (e :: es).
Proof.
  destruct r as [a b c d e0 f g h i j k s m n].
  destruct e as [c0 | line | chunk | size nitems]; cbn [deliver].
  - destruct s as [s|]; reflexivity.
  - unfold header_callback, feedResponseHeader, received;
      cbn [fst header_lines existsb filter].
    change (is_terminator line) with (String.eqb line CRLF).
    destruct (String.eqb line CRLF); cbn.
    + now rewrite orb_true_r.
    + rewrite <- app_assoc. cbn. now destruct (parser line).
  - unfold received; cbn. unfold feed. now rewrite <- app_assoc.
  - cbn [_content_provider]. destruct g.
    + destruct (read_callback size nitems (provider w)) as [[x data] cp'].
      reflexivity.
    + reflexivity.
Qed.

(** The request side of any run of events. *)
Lemma deliver_all_received (es : list CurlEvent) :
  forall (r : Request) (w : World),
    fst (deliver_all parser es (r, w)) = received parser r es.
Proof.
  unfold deliver_all.
  induction es as [|e es IH]; intros r w; cbn [fold_left].
  - cbn [fst]. symmetry. apply received_nil.
  - destruct (deliver parser e (r, w)) as [r1 w1] eqn:E.
    rewrite IH. rewrite <- (deliver_received e es r w). now rewrite E.
Qed.

Lemma received_app (r : Request) (es1 es2 : list CurlEvent) :
  received parser (received parser r es1) es2 = received parser r (es1 ++ es2).
Proof.
  set (w := mk_World 0 (mk_ContentProvider [] 0 0) [] [] []).
  rewrite <- (deliver_all_received es1 r w).
  destruct (deliver_all parser es1 (r, w)) as [r1 w1] eqn:E. cbn [fst].
  rewrite <- (deliver_all_received es2 r1 w1).
  rewrite <- (deliver_all_received (es1 ++ es2) r w).
  unfold deliver_all in *. now rewrite fold_left_app, E.
Qed.

(** The world side: the clock and the script are not touched, the calls
    made are pulls, and with no content provider nothing is touched. *)
Lemma deliver_all_world (es : list CurlEvent) :
  forall (r : Request) (w : World),
    let w' := snd (deliver_all parser es (r, w)) in
    clock w' = clock w /\ transport w' = transport w
    /\ (exists new, calls w' = (calls w ++ new)%list
                    /\ forallb is_transfer_call new = true)
    /\ (_content_provider r = false -> w' = w).
Proof.
  unfold deliver_all.
  induction es as [|e es IH]; intros r w; cbn [fold_left].
  - cbn. repeat split; auto. exists []. now rewrite app_nil_r.
  - destruct (deliver parser e (r, w)) as [r1 w1] eqn:E.
    specialize (IH r1 w1). cbv zeta in IH.
    destruct IH as (Hc & Ht & (new & Hcalls & Hnew) & Hcp).
    assert (H1 : clock w1 = clock w /\ transport w1 = transport w
                 /\ (exists n1, calls w1 = (calls w ++ n1)%list
                                /\ forallb is_transfer_call n1 = true)
                 /\ (_content_provider r = false -> w1 = w)
                 /\ _content_provider r1 = _content_provider r).
    { destruct e as [c0 | line | chunk | size nitems]; cbn [deliver] in E.
      - inversion E; subst. repeat split; auto.
        exists []. now rewrite app_nil_r.
      - inversion E; subst. repeat split; auto.
        + exists []. now rewrite app_nil_r.
        + unfold header_callback, feedResponseHeader; cbn [fst].
          destruct (String.eqb line CRLF); reflexivity.
      - inversion E; subst. repeat split; auto.
        exists []. now rewrite app_nil_r.
      - destruct (_content_provider r) eqn:Ecp.
        + destruct (read_callback size nitems (provider w)) as [[x data] cp'].
          inversion E; subst. cbn. repeat split; auto; [|discriminate].
          eexists. split; reflexivity.
        + inversion E; subst. repeat split; auto.
          exists []. now rewrite app_nil_r. }
    destruct H1 as (H1c & H1t & (n1 & H1calls & H1new) & H1cp & H1keep).
    cbv zeta. split; [congruence|]. split; [congruence|]. split.
    + exists (n1 ++ new)%list. rewrite Hcalls, H1calls, app_assoc.
      split; [reflexivity|]. rewrite forallb_app, H1new, Hnew. reflexivity.
    + intros Hno. rewrite Hcp by congruence. auto.
Qed.

(** The loop returns exactly when the script has a call that stops it,
    and then the request has seen the events of the calls made. *)
Lemma drive_spec (script : list PerformResult) :
  forall (r : Request) (w : World),
    (existsb stops script = true ->
     exists w',
       drive parser script r w
       = Done (received parser r (all_events (performed script)), w')
       /\ transport w' = skipn (List.length (performed script)) script
       /\ clock w' = clock w
       /\ (exists new, calls w' = (calls w ++ new)%list
                       /\ forallb is_transfer_call new = true)
       /\ (_content_provider r = false ->
           provider w' = provider w /\ sent w' = sent w))
    /\ (existsb stops script = false -> drive parser script r w = NoReturn).
Proof.
  induction script as [|p script IH]; intros r w.
  - cbn. split; [discriminate | reflexivity].
  - cbn [drive existsb performed].
    set (w0 := set_transport (record_call w CallPerform) script).
    pose proof (deliver_all_received (events p) r w0) as Hr.
    pose proof (deliver_all_world (events p) r w0) as Hw. cbv zeta in Hw.
    destruct (deliver_all parser (events p) (r, w0)) as [r1 w1].
    cbn [fst snd] in Hr, Hw.
    destruct Hw as (Hc & Ht & (n1 & Hcalls & Hn1) & Hcp).
    change (clock w0) with (clock w) in Hc.
    change (transport w0) with script in Ht.
    assert (Hnow : exists new, calls w1 = (calls w ++ new)%list
                               /\ forallb is_transfer_call new = true).
    { exists (CallPerform :: n1). rewrite Hcalls. subst w0. cbn.
      rewrite <- app_assoc. split; [reflexivity | exact Hn1]. }
    assert (Hstops : stops p
                     = negb (result p =? CURLM_OK) || (still_running p =? 0))
      by reflexivity.
    destruct (negb (result p =? CURLM_OK)) eqn:E1;
      [| destruct (still_running p =? 0) eqn:E2];
      cbn [orb] in Hstops; rewrite Hstops; cbn [orb].
    1,2: split; [intros _ | discriminate];
      exists w1; unfold all_events; cbn [flat_map List.length skipn];
      rewrite app_nil_r; subst r1;
      (split; [reflexivity|]); (split; [exact Ht|]); (split; [exact Hc|]);
      (split; [exact Hnow|]);
      intros Hno; rewrite (Hcp Hno); split; reflexivity.
    specialize (IH r1 w1). destruct IH as [IHt IHf].
    assert (Hkeep : _content_provider r1 = _content_provider r)
      by (subst r1; reflexivity).
    split.
    + intros Hex. destruct (IHt Hex) as (w' & Hd & Ht' & Hc' & (n2 & Hcalls2 & Hn2) & Hcp').
      exists w'. rewrite Hd. subst r1. rewrite received_app.
      unfold all_events. cbn [flat_map List.length skipn].
      split; [reflexivity|]. split; [exact Ht'|]. split; [congruence|].
      split.
      * destruct Hnow as (n0 & Hcalls0 & Hn0).
        exists (n0 ++ n2)%list. rewrite Hcalls2, Hcalls0, app_assoc.
        split; [reflexivity|]. now rewrite forallb_app, Hn0, Hn2.
      * intros Hno. rewrite Hkeep in Hcp'. destruct (Hcp' Hno) as [Hp Hs].
        rewrite Hp, Hs, (Hcp Hno). split; reflexivity.
    + intros Hex. now rewrite (IHf Hex).
Qed.


Lemma checkTimeout_ok_not_elapsed (r : Request) (w : World) :
  ok (fst (checkTimeout scope r w)) = true ->
  elapsed (_deadline r) (clock w) = false
  /\ fst (checkTimeout scope r w) = StatusOk
  /\ calls (snd (checkTimeout scope r w))
     = (calls w ++ match _deadline r with
                   | Some _ => [CallClockNow]
                   | None => []
                   end)%list.
Proof.
  unfold checkTimeout, elapsed.
  destruct (_deadline r) as [d|]; [destruct (d <? clock w)|]; cbn;
    try discriminate; intros _; rewrite ?app_nil_r; repeat split.
Qed.

Lemma configure_handle (r : Request) (handle : CurlSession) :
  let h6 :=
    curl_easy_setopt
      (curl_easy_setopt
         (curl_easy_setopt
            (curl_easy_setopt
               (curl_easy_setopt
                  (curl_easy_setopt handle
                     (CURLOPT_CUSTOMREQUEST (c_str (_verb r))))
                  (CURLOPT_URL (c_str (getString (_uri r)))))
               CURLOPT_HEADERFUNCTION) CURLOPT_HEADERDATA)
         CURLOPT_WRITEFUNCTION) CURLOPT_WRITEDATA in
  let h7 :=
    if _content_provider r
    then curl_easy_setopt (curl_easy_setopt h6 CURLOPT_READFUNCTION)
                          CURLOPT_READDATA
    else h6 in
  curl_easy_setopt h7
    (CURLOPT_HTTPHEADER (_chunklist r ++ formatted_headers r))
  = mk_CurlSession (session_id handle) (options handle ++ start_options r)
                   (response_code handle).
Proof.
  unfold start_options, curl_easy_setopt.
  destruct (_content_provider r); cbn; rewrite <- !app_assoc; reflexivity.
Qed.

(** From the factory's session on, [startRequest] is its loop. *)
Lemma startRequest_enters_loop (r : Request) (w : World) (st : Status)
      (handle : CurlSession) :
  _state r = kNotStarted ->
  ok (fst (checkTimeout scope r w)) = true ->
  factory (_uri r) (_params r) = (st, Some handle) ->
  ok st = true ->
  startRequest scope parser factory r w
  = match drive parser (transport w) (configured r handle)
                (world_at_loop scope r w) with
    | Done (r3, w4) => Done (StatusOk, set_state r3 kStarted, w4)
    | NullDeref => NullDeref
    | NoReturn => NoReturn
    end.
Proof.
  intros Hstate Hct Hfac Hok.
  unfold startRequest, world_at_loop, configured.
  rewrite Hstate; cbn [RequestState_eqb negb].
  assert (Ht : transport (snd (checkTimeout scope r w)) = transport w).
  { unfold checkTimeout. destruct (_deadline r) as [d|];
      [destruct (d <? clock w)|]; reflexivity. }
  destruct (checkTimeout scope r w) as [st0 w1]; cbn [fst snd] in *.
  rewrite Hct, Hfac, Hok; cbn [negb].
  pose proof (configure_handle r handle) as Hcfg. cbv zeta in Hcfg.
  unfold formatted_headers in Hcfg.
  destruct (_content_provider r); cbn [transport set_provider record_call];
    rewrite Hcfg, Ht; reflexivity.
Qed.

(** What a [startRequest] that went through the loop has done. *)
Lemma startRequest_ok_inv (r : Request) (w : World)
      (st : Status) (r' : Request) (w' : World) :
  _state r = kNotStarted ->
  startRequest scope parser factory r w = Done (st, r', w') ->
  ok st = true ->
  exists handle,
    snd (factory (_uri r) (_params r)) = Some handle
    /\ ok (fst (factory (_uri r) (_params r))) = true
    /\ elapsed (_deadline r) (clock w) = false
    /\ existsb stops (transport w) = true
    /\ st = StatusOk
    /\ r' = set_state (received parser (configured r handle)
                                (all_events (performed (transport w))))
                      kStarted
    /\ transport w'
       = skipn (List.length (performed (transport w))) (transport w)
    /\ clock w' = clock w
    /\ (exists new,
           calls w' = (calls (world_at_loop scope r w) ++ new)%list
           /\ forallb is_transfer_call new = true)
    /\ (_content_provider r = false ->
        provider w' = provider w /\ sent w' = sent w).
Proof.
  intros Hstate Hstart Hok.
  destruct (ok (fst (checkTimeout scope r w))) eqn:Hct.
  - destruct (factory (_uri r) (_params r)) as [st0 session] eqn:Hfac.
    destruct (ok st0) eqn:Hok0.
    + destruct session as [handle|].
      * rewrite (startRequest_enters_loop r w st0 handle Hstate Hct Hfac Hok0)
          in Hstart.
        destruct (checkTimeout_ok_not_elapsed r w Hct) as (Hel & _ & _).
        assert (Hwl : transport (world_at_loop scope r w) = transport w
                      /\ clock (world_at_loop scope r w) = clock w
                      /\ (_content_provider r = false ->
                          provider (world_at_loop scope r w) = provider w
                          /\ sent (world_at_loop scope r w) = sent w)).
        { unfold world_at_loop, checkTimeout.
          destruct (_deadline r) as [d|]; [destruct (d <? clock w)|];
            destruct (_content_provider r); cbn; repeat split;
            intros; discriminate. }
        destruct Hwl as (Hwt & Hwc & Hwp).
        destruct (drive_spec (transport w) (configured r handle)
                             (world_at_loop scope r w)) as [Hdone Hnoret].
        destruct (existsb stops (transport w)) eqn:Hstops.
        -- destruct (Hdone eq_refl) as (w4 & Hd & Ht & Hc & Hcalls & Hcp).
           rewrite Hd in Hstart. inversion Hstart; subst.
           exists handle. cbn [fst snd].
           repeat (split; [first [reflexivity | assumption | congruence]|]).
           intros Hno. destruct (Hcp Hno) as [Hp Hs].
           destruct (Hwp Hno) as [Hp' Hs']. split; congruence.
        -- rewrite (Hnoret eq_refl) in Hstart. discriminate.
      * unfold startRequest in Hstart.
        rewrite Hstate in Hstart; cbn [RequestState_eqb negb] in Hstart.
        destruct (checkTimeout scope r w) as [st1 w1]; cbn [fst] in Hct.
        rewrite Hct, Hfac, Hok0 in Hstart. discriminate.
    + unfold startRequest in Hstart.
      rewrite Hstate in Hstart; cbn [RequestState_eqb negb] in Hstart.
      destruct (checkTimeout scope r w) as [st1 w1]; cbn [fst] in Hct.
      rewrite Hct, Hfac, Hok0 in Hstart. cbn in Hstart.
      inversion Hstart; subst. congruence.
  - unfold startRequest in Hstart.
    rewrite Hstate in Hstart; cbn [RequestState_eqb negb] in Hstart.
    destruct (checkTimeout scope r w) as [st1 w1]; cbn [fst] in Hct.
    rewrite Hct in Hstart. cbn in Hstart. inversion Hstart; subst. congruence.
Qed.

(** X18: with a session from the factory in hand, [startRequest]
    returns exactly when the transport comes to a [curl_multi_perform]
    that fails or leaves nothing running: it then returns success in
    state [kStarted] having made the calls of the script up to that one
    and no more; while every call reports [CURLM_OK] with something still
    running, the loop goes on. *)
Theorem startRequest_loop_ends_iff (r : Request) (w : World) (st : Status)
      (handle : CurlSession) :
  _state r = kNotStarted ->
  elapsed (_deadline r) (clock w) = false ->
  factory (_uri r) (_params r) = (st, Some handle) ->
  ok st = true ->
  (existsb stops (transport w) = true ->
   exists r' w',
     startRequest scope parser factory r w = Done (StatusOk, r', w')
     /\ getState r' = kStarted
     /\ transport w'
        = skipn (List.length (performed (transport w))) (transport w))
  /\ (existsb stops (transport w) = false ->
      startRequest scope parser factory r w = NoReturn).
Proof.
  intros Hstate Hel Hfac Hok.
  assert (Hct : ok (fst (checkTimeout scope r w)) = true)
    by now rewrite (checkTimeout_not_elapsed scope r w Hel).
  rewrite (startRequest_enters_loop r w st handle Hstate Hct Hfac Hok).
  destruct (drive_spec (transport w) (configured r handle)
                       (world_at_loop scope r w)) as [Hdone Hnoret].
  split.
  - intros Hstops. destruct (Hdone Hstops) as (w4 & Hd & Ht & _).
    rewrite Hd. do 2 eexists. split; [reflexivity|]. split; [reflexivity|].
    exact Ht.
  - intros Hstops. now rewrite (Hnoret Hstops).
Qed.

(** X19: a [curl_multi_perform] that fails ends the loop like one that
    finishes the transfer: when the first call of the transport fails,
    [startRequest] still returns success and the state is [kStarted], with
    whatever body that call delivered in the sink. *)
Theorem startRequest_ignores_transport_error (r : Request) (w : World)
      (st : Status) (handle : CurlSession)
      (p : PerformResult) (rest : list PerformResult) :
  _state r = kNotStarted ->
  elapsed (_deadline r) (clock w) = false ->
  factory (_uri r) (_params r) = (st, Some handle) ->
  ok st = true ->
  transport w = p :: rest ->
  result p <> CURLM_OK ->
  exists r' w',
    startRequest scope parser factory r w = Done (StatusOk, r', w')
    /\ getState r' = kStarted
    /\ transport w' = rest
    /\ _response_buffer r' = (_response_buffer r ++ bodies (events p))%list.
Proof.
  intros Hstate Hel Hfac Hok Htr Hres.
  assert (Hct : ok (fst (checkTimeout scope r w)) = true)
    by now rewrite (checkTimeout_not_elapsed scope r w Hel).
  rewrite (startRequest_enters_loop r w st handle Hstate Hct Hfac Hok).
  assert (Hstop : stops p = true).
  { unfold stops. apply Z.eqb_neq in Hres. now rewrite Hres. }
  destruct (drive_spec (transport w) (configured r handle)
                       (world_at_loop scope r w)) as [Hdone _].
  rewrite Htr in Hdone. cbn [existsb performed] in Hdone.
  rewrite Hstop in Hdone. destruct (Hdone eq_refl) as (w4 & Hd & Ht & _).
  rewrite Htr, Hd. do 2 eexists.
  split; [reflexivity|]. split; [reflexivity|]. split; [exact Ht|].
  unfold all_events. cbn. now rewrite app_nil_r.
Qed.

(** X20: after a [startRequest] from [kNotStarted] that returned
    success, the state is [kStarted]; the sink holds what it held before
    followed by the body chunks of the calls made, in order; the response
    headers are those of before followed by what the parser makes of each
    header line that is not the terminator, in order; the terminator flag
    is set if it was or if a terminator line came; and [getStatusCode]
    returns the last status the transport saw, as an [int]. *)
Theorem startRequest_ok_received (r : Request) (w : World)
      (st : Status) (r' : Request) (w' : World) :
  _state r = kNotStarted ->
  startRequest scope parser factory r w = Done (st, r', w') ->
  ok st = true ->
  let es := all_events (performed (transport w)) in
  getState r' = kStarted
  /\ _response_buffer r' = (_response_buffer r ++ bodies es)%list
  /\ _response_headers r'
     = (_response_headers r
        ++ map parser
             (filter (fun l => negb (is_terminator l)) (header_lines es)))%list
  /\ _received_headers r'
     = _received_headers r || existsb is_terminator (header_lines es)
  /\ exists handle,
      snd (factory (_uri r) (_params r)) = Some handle
      /\ getStatusCode r'
         = Done (to_int (last_status es (response_code handle))).
Proof.
  intros Hstate Hstart Hok es.
  destruct (startRequest_ok_inv r w st r' w' Hstate Hstart Hok)
    as (handle & Hfac & _ & _ & _ & _ & Hr' & _).
  subst r'. repeat split. exists handle. split; [exact Hfac | reflexivity].
Qed.


(** X22: the calls of a [startRequest] from [kNotStarted] that returned
    success are, in this order: the clock reading when there is a
    deadline, one call of the factory, one [rewind] when there is a
    content provider and none when there is not, and then calls of the
    transport and pulls from the provider only; the clock is not moved,
    and with no content provider the provider and what was sent are not
    touched. *)
Theorem startRequest_ok_calls (r : Request) (w : World)
      (st : Status) (r' : Request) (w' : World) :
  _state r = kNotStarted ->
  startRequest scope parser factory r w = Done (st, r', w') ->
  ok st = true ->
  (exists new,
      calls w'
      = (calls w
         ++ match _deadline r with Some _ => [CallClockNow] | None => [] end
         ++ [CallProvideSession (_uri r) (_params r)]
         ++ (if _content_provider r then [CallRewind] else [])
         ++ new)%list
      /\ forallb is_transfer_call new = true)
  /\ clock w' = clock w
  /\ (_content_provider r = false ->
      provider w' = provider w /\ sent w' = sent w).
Proof.
  intros Hstate Hstart Hok.
  destruct (startRequest_ok_inv r w st r' w' Hstate Hstart Hok)
    as (handle & _ & _ & Hel & _ & _ & _ & _ & Hc & (new & Hcalls & Hnew) & Hcp).
  split; [|split; [exact Hc | exact Hcp]].
  exists new. split; [|exact Hnew]. rewrite Hcalls.
  assert (Hct : ok (fst (checkTimeout scope r w)) = true)
    by now rewrite (checkTimeout_not_elapsed scope r w Hel).
  destruct (checkTimeout_ok_not_elapsed r w Hct) as (_ & _ & Hcc).
  unfold world_at_loop.
  destruct (_content_provider r); cbn [calls set_provider record_call];
    rewrite Hcc, <- !app_assoc; reflexivity.
Qed.

(** X23: a request with an empty sink that [startRequest] has started
    gives back, over calls of [readBlock] at none of which the deadline has
    passed, the body the transport delivered during [startRequest]: the
    first so many bytes of it as the sizes add up to, and all of it with
    the sink left empty when they add up to its length or more. *)
Theorem start_then_read_drains_body (r : Request) (w : World)
      (st : Status) (r' : Request) (w' : World)
      (st0 : Status) (reads : list (Z * N)) :
  _state r = kNotStarted ->
  _response_buffer r = [] ->
  startRequest scope parser factory r w = Done (st, r', w') ->
  ok st = true ->
  Forall (fun rd => elapsed (_deadline r) (fst rd) = false) reads ->
  let body := bodies (all_events (performed (transport w))) in
  let total := total_size (map snd reads) in
  let '(data, ns, _, r'', _) := readBlocks scope r' w' st0 reads in
  data = firstn total body
  /\ _response_buffer r'' = skipn total body
  /\ Forall (fun n => 0 <= n) ns
  /\ ((List.length body <= total)%nat ->
      data = body /\ _response_buffer r'' = []).
Proof.
  intros Hstate Hbuf Hstart Hok Hreads body total.
  destruct (startRequest_ok_inv r w st r' w' Hstate Hstart Hok)
    as (handle & _ & _ & _ & _ & _ & Hr' & _).
  assert (Hs : _session r' <> None) by (subst r'; discriminate).
  assert (Hd : _deadline r' = _deadline r) by (subst r'; reflexivity).
  assert (Hb : _response_buffer r' = body)
    by (subst r'; cbn; now rewrite Hbuf).
  rewrite <- Hd in Hreads.
  pose proof (readBlocks_prefix scope reads r' w' st0 Hs Hreads) as H.
  destruct (readBlocks scope r' w' st0 reads) as [[[[data ns] st2] r2] w2].
  rewrite Hb in H. fold total in H. destruct H as (H1 & H2 & H3 & _).
  split; [exact H1|]. split; [exact H2|]. split; [exact H3|].
  intros Hlen. rewrite H1, H2, firstn_all2, skipn_all2 by exact Hlen.
  split; reflexivity.
Qed.

(** X24: no operation takes the state back: [startRequest], however it
    returns, leaves a state that is the one before or a later one in the
    order not started, started, finished; [endRequest] goes to the last
    one; [readBlock] and [feedResponseHeader] leave the state alone. *)
Theorem state_never_regresses (r : Request) :
  (forall (w : World) (st : Status) (r' : Request) (w' : World),
      startRequest scope parser factory r w = Done (st, r', w') ->
      (state_rank (_state r) <= state_rank (_state r'))%nat)
  /\ (state_rank (_state r) <= state_rank (getState (snd (endRequest r))))%nat
  /\ (forall (w : World) (max_size : N) (st : Status),
         _state (snd (fst (readBlock scope r w max_size st))) = _state r)
  /\ (forall line : string, _state (feedResponseHeader parser r line) = _state r).
Proof.
  split; [|split; [|split]].
  - intros w st r' w' Hstart.
    destruct (RequestState_eqb (_state r) kNotStarted) eqn:E.
    + apply RequestState_eqb_eq in E.
      destruct (ok st) eqn:Hok.
      * destruct (startRequest_ok_inv r w st r' w' E Hstart Hok)
          as (handle & _ & _ & _ & _ & _ & Hr' & _).
        subst r'. rewrite E. cbn. lia.
      * unfold startRequest in Hstart.
        rewrite E in Hstart; cbn [RequestState_eqb negb] in Hstart.
        destruct (checkTimeout scope r w) as [st1 w1].
        destruct (ok st1); cbn [negb] in Hstart;
          [|inversion Hstart; subst; lia].
        destruct (factory (_uri r) (_params r)) as [st2 session].
        destruct (ok st2); cbn [negb] in Hstart;
          [|inversion Hstart; subst; cbn; lia].
        destruct session as [handle|]; [|discriminate].
        destruct (_content_provider r);
          match type of Hstart with
          | context [drive ?P ?s ?a ?b] =>
              destruct (drive P s a b) as [[r3 w4]| |]
          end; try discriminate;
          inversion Hstart; subst; discriminate.
    + unfold startRequest in Hstart. rewrite E in Hstart.
      inversion Hstart; subst. lia.
  - cbn. destruct (_state r); cbn; lia.
  - intros w max_size st. unfold readBlock.
    destruct (_session r); [|reflexivity].
    destruct (max_size =? 0)%N; [reflexivity|].
    destruct (checkTimeout scope r w) as [st1 w1].
    destruct (ok st1); reflexivity.
  - intros line. unfold feedResponseHeader.
    destruct (String.eqb line CRLF); reflexivity.
Qed.

End DriveLoop.

(** ** The further properties at the samples *)

Lemma timeout_is_permanent_witness :
  let late := set_clock started_world 6000 in
  let later := set_clock started_world 7000 in
  elapsed (_deadline started_request) (clock late) = true
  /\ clock late <= clock later
  /\ exists st,
      readBlock sample_scope started_request later 4 StatusOk
      = (-1, [], st, started_request, record_call later CallClockNow)
      /\ getStatusCodeOf st = OperationTimeout.
Proof.
  intros late later.
  assert (H1 : elapsed (_deadline started_request) (clock late) = true)
    by reflexivity.
  assert (H2 : clock late <= clock later) by (cbn; lia).
  split; [exact H1|]. split; [exact H2|].
  destruct (timeout_is_permanent sample_scope HeaderlineParser_model
              sample_factory started_request late later H1 H2) as [_ H].
  apply (H 4%N StatusOk); discriminate.
Defined.

Lemma startRequest_factory_failure_witness :
  exists st w',
    startRequest sample_scope HeaderlineParser_model failing_factory
                 sample_request sample_world
    = Done (st, sample_request, w')
    /\ getStatusCodeOf st = ConnectionProblem
    /\ transport w' = transport sample_world.
Proof.
  destruct (startRequest_factory_failure sample_scope HeaderlineParser_model
              failing_factory sample_request sample_world
              (fst (failing_factory sample_uri sample_params)) None
              eq_refl eq_refl eq_refl eq_refl) as (H & _).
  do 2 eexists. split; [exact H|]. split; reflexivity.
Defined.

Lemma readBlock_without_session_witness :
  _session sample_request = None
  /\ exists msg,
      readBlock sample_scope sample_request (set_clock sample_world 6000) 0
                StatusOk
      = (-1, [], StatusError sample_scope AlreadyRunning msg, sample_request,
         set_clock sample_world 6000).
Proof.
  split; [reflexivity|].
  apply (readBlock_without_session sample_scope sample_request
           (set_clock sample_world 6000) 0%N StatusOk eq_refl).
Defined.

Lemma readBlock_returns_min_witness :
  let n := fst (fst (fst (fst (readBlock sample_scope started_request
                                         started_world 100 StatusOk)))) in
  n = Z.min (Z.of_N 100)
            (Z.of_nat (List.length (_response_buffer started_request)))
  /\ (n = 0 <-> _response_buffer started_request = []).
Proof.
  apply (readBlock_returns_min sample_scope started_request started_world
           100%N StatusOk); [discriminate | discriminate | reflexivity].
Defined.

Lemma endRequest_before_start_is_final_witness :
  let finished := snd (endRequest sample_request) in
  _session sample_request = None
  /\ startRequest sample_scope HeaderlineParser_model sample_factory
                  finished sample_world
     = Done (StatusOk, finished, sample_world).
Proof.
  intros finished. split; [reflexivity|].
  apply (endRequest_before_start_is_final sample_scope HeaderlineParser_model
           sample_factory sample_request sample_world eq_refl).
Defined.

Lemma startRequest_loop_ends_iff_witness :
  existsb stops (transport upload_world) = true
  /\ exists r' w',
      startRequest sample_scope HeaderlineParser_model sample_factory
                   upload_request upload_world
      = Done (StatusOk, r', w')
      /\ getState r' = kStarted
      /\ transport w'
         = [ mk_PerformResult [ OnBody (bytes_of_string "never") ] CURLM_OK 0 ].
Proof.
  split; [reflexivity|].
  destruct (startRequest_loop_ends_iff sample_scope HeaderlineParser_model
              sample_factory upload_request upload_world StatusOk
              sample_session eq_refl eq_refl eq_refl eq_refl) as [H _].
  exact (H eq_refl).
Defined.

Lemma startRequest_ignores_transport_error_witness :
  exists r' w',
    startRequest sample_scope HeaderlineParser_model sample_factory
                 sample_request broken_world
    = Done (StatusOk, r', w')
    /\ getState r' = kStarted
    /\ transport w' = []
    /\ _response_buffer r' = bytes_of_string "part".
Proof.
  apply (startRequest_ignores_transport_error sample_scope
           HeaderlineParser_model sample_factory sample_request broken_world
           StatusOk sample_session
           (mk_PerformResult [ OnBody (bytes_of_string "part") ] 1 1) []);
    try reflexivity.
  discriminate.
Defined.

Lemma startRequest_ok_received_witness :
  getState started_request = kStarted
  /\ _response_buffer started_request = bytes_of_string "hello world"
  /\ _response_headers started_request
     = [("Content-Type", "text/plain"); ("Content-Length", "11")]
  /\ _received_headers started_request = true
  /\ exists handle,
      snd (sample_factory sample_uri sample_params) = Some handle
      /\ getStatusCode started_request = Done 200.
Proof.
  apply (startRequest_ok_received sample_scope HeaderlineParser_model
           sample_factory sample_request sample_world StatusOk
           started_request started_world eq_refl eq_refl eq_refl).
Defined.


Lemma startRequest_ok_calls_witness :
  exists r' w' new,
    startRequest sample_scope HeaderlineParser_model sample_factory
                 upload_request upload_world
    = Done (StatusOk, r', w')
    /\ calls w'
       = ([CallProvideSession sample_uri sample_params; CallRewind] ++ new)%list
    /\ forallb is_transfer_call new = true.
Proof.
  destruct (startRequest sample_scope HeaderlineParser_model sample_factory
                         upload_request upload_world)
    as [[[st r'] w'] | |] eqn:E; try (vm_compute in E; discriminate).
  assert (Hst : st = StatusOk) by (vm_compute in E; congruence).
  subst st.
  destruct (startRequest_ok_calls sample_scope HeaderlineParser_model
              sample_factory upload_request upload_world StatusOk r' w'
              eq_refl E eq_refl) as ((new & Hcalls & Hnew) & _).
  exists r', w', new. split; [reflexivity|]. split; [exact Hcalls | exact Hnew].
Defined.

Lemma start_then_read_drains_body_witness :
  let '(data, ns, _, r'', _) :=
    readBlocks sample_scope started_request started_world StatusOk
               [(1000, 4%N); (1001, 100%N)] in
  let body := bodies (all_events (performed (transport sample_world))) in
  let total := total_size [4%N; 100%N] in
  data = firstn total body
  /\ _response_buffer r'' = skipn total body
  /\ Forall (fun n => 0 <= n) ns
  /\ ((List.length body <= total)%nat ->
      data = body /\ _response_buffer r'' = []).
Proof.
  apply (start_then_read_drains_body sample_scope HeaderlineParser_model
           sample_factory sample_request sample_world StatusOk
           started_request started_world StatusOk
           [(1000, 4%N); (1001, 100%N)] eq_refl eq_refl eq_refl eq_refl).
  repeat constructor.
Defined.
